(** * Clause composition of the query builder (query_base.go)

    A shallow embedding of the shared builder state [baseQuery], the
    WHERE composer [WhereQuery]/[whereBaseQuery], the RETURNING composer
    [returningQuery] and the CREATE INDEX renderer, followed by the
    properties they satisfy.

    Conventions.
    - A byte buffer [[]byte] and a Go [string] are both [string]; the Go
      idiom [b = append(b, s...)] is [b ++ s].
    - A Go slice whose nil-ness is observed by the code is an [option
      (list _)], [None] being the nil slice.
    - A function returning [([]byte, error)] returns a [result string];
      [Err e] stands for the pair [(nil, e)] and [Panic] for a nil
      dereference at run time. *)

From Stdlib Require Import String List ZArith Bool Lia Ascii DecimalString.
Import ListNotations.
Local Open Scope string_scope.

(** ** Values and collaborators outside query_base.go *)

(** Go values reached through reflection: what a bound struct or the
    elements of a bound slice look like to the renderer. *)
#[local] Unset Elimination Schemes.
Inductive Value : Type :=
| VNil
| VInt (n : Z)
| VString (s : string)
| VStruct (fields : list (string * Value))
| VPtr (v : Value).
#[local] Set Elimination Schemes.

(** A [*schema.Field]: [Addr] is the address the pointer holds, the
    other components are the struct it points to.  [Name] is the column
    name, [SQLName] its quoted form, [GoName] the struct field it is
    read from. *)
Record Field : Type := mkField {
  Addr : nat;
  Name : string;
  SQLName : string;
  GoName : string;
  IsPK : bool
}.

(** [schema.Table]. *)
Record Table : Type := mkTable {
  TypeName : string;
  TableSQLName : string;
  Alias : string;
  Fields : list Field;
  PKs : list Field;
  DataFields : list Field;
  SoftDeleteField : option Field
}.

(** The implementations of the [tableModel] interface: the two the
    primary-key predicate supports and every other one, known by the
    name of its concrete type. *)
Inductive tableModel : Type :=
| structTableModel (t : Table) (strct : Value)
| sliceTableModel (t : Table) (slice : list Value)
| otherTableModel (kind : string) (t : Table).

Definition tableModel_Table (tm : tableModel) : Table :=
  match tm with
  | structTableModel t _ => t
  | sliceTableModel t _ => t
  | otherTableModel _ t => t
  end.

(** The [model] interface: a model that is a [tableModel], or one that
    is not. *)
Inductive model : Type :=
| modelOfTable (tm : tableModel)
| plainModel (kind : string).

(** Arguments of a [fmt.Errorf] verb. *)
Inductive fmtArg : Type :=
| argString (s : string)
| argTable (t : Table)
| argTypeOf (tm : option tableModel).

(** Error values.  [errors.New] and [fmt.Errorf] are kept symbolic (the
    message or the format with its arguments); an error handed back by a
    collaborator keeps its own identity under [external]. *)
Inductive error : Type :=
| errorsNew (msg : string)
| fmtErrorf (format : string) (args : list fmtArg)
| external (msg : string).

Inductive result (A : Type) : Type :=
| Ok (a : A)
| Err (e : error)
| Panic.
Arguments Ok {A} a.
Arguments Err {A} e.
Arguments Panic {A}.

Definition bind {A B : Type} (r : result A) (k : A -> result B) : result B :=
  match r with
  | Ok a => k a
  | Err e => Err e
  | Panic => Panic
  end.

Notation "x <- r ;; k" := (bind r (fun x => k))
  (at level 61, r at next level, right associativity).

(** ** sqlfmt: fragments and the formatter *)

(** [sqlfmt.QueryWithArgs]; [Args = None] is the nil slice. *)
Record QueryWithArgs : Type := mkQuery {
  Query : string;
  Args : option (list Value)
}.

(** [sqlfmt.QueryWithSep] embeds [QueryWithArgs] and adds [Sep]. *)
Record QueryWithSep : Type := mkQuerySep {
  qwa : QueryWithArgs;
  Sep : string
}.

(** Modelled from the spec: the constructors of package sqlfmt
    ([SafeQuery], [UnsafeIdent], [SafeQueryWithSep]).  A clause fragment
    is [{text, args, separator}]; an identifier fragment has its
    arguments absent. *)
Definition SafeQuery (query : string) (args : option (list Value)) : QueryWithArgs :=
  {| Query := query; Args := args |}.

Definition UnsafeIdent (ident : string) : QueryWithArgs :=
  {| Query := ident; Args := None |}.

Definition SafeQueryWithSep (query : string) (args : option (list Value))
    (sep : string) : QueryWithSep :=
  {| qwa := SafeQuery query args; Sep := sep |}.

(** Modelled from the spec: [QueryWithArgs.IsZero], the test the builder
    itself spells out in [_appendWhere]: empty [Query] and nil [Args]. *)
Definition IsZero (q : QueryWithArgs) : bool :=
  (Query q =? "") && match Args q with None => true | Some _ => false end.

(** Modelled from the spec: the formatter is an opaque capability.  Each
    of its operations appends to the buffer it is given, so it is
    represented by the text it appends: [fmtQuery] for
    [FormatQuery(b, query)], [fmtFragment] for
    [QueryWithArgs.AppendQuery(fmter, b)] (which may fail), [fmtValue]
    for the literal a field appends, and [isNop] for
    [sqlfmt.IsNopFormatter]. *)
Record QueryFormatter : Type := mkFormatter {
  isNop : bool;
  fmtQuery : string -> string;
  fmtFragment : QueryWithArgs -> string + string;
  fmtValue : Value -> string
}.

Definition IsNopFormatter (fmter : QueryFormatter) : bool := isNop fmter.

Definition FormatQuery (fmter : QueryFormatter) (b query : string) : string :=
  b ++ fmtQuery fmter query.

Definition AppendQuery (q : QueryWithArgs) (fmter : QueryFormatter) (b : string)
    : result string :=
  match fmtFragment fmter q with
  | inl s => Ok (b ++ s)
  | inr msg => Err (external msg)
  end.

(** Modelled from the spec: [schema.Field.AppendValue] reads the field
    out of the bound value and appends its literal. *)
Definition fieldValue (f : Field) (strct : Value) : Value :=
  match strct with
  | VStruct fields =>
      match find (fun kv => fst kv =? GoName f) fields with
      | Some kv => snd kv
      | None => VNil
      end
  | _ => VNil
  end.

Definition AppendValue (f : Field) (fmter : QueryFormatter) (b : string)
    (strct : Value) : string :=
  b ++ fmtValue fmter (fieldValue f strct).

(** Modelled from the spec: [indirect] follows a pointer to the element
    it points to. *)
Definition indirect (v : Value) : Value :=
  match v with
  | VPtr e => e
  | _ => v
  end.

(** Modelled from the spec: [schema.Table.CheckPKs] validates that the
    table declares at least one primary-key field. *)
Definition CheckPKs (t : Table) : option error :=
  match PKs t with
  | [] => Some (errorsNew "table has no primary key")
  | _ :: _ => None
  end.

(** ** internal.Flag *)

(** Modelled from the spec: [internal.Flag] is a 64-bit set of flags with
    [Has], [Set] and [Remove]. *)
Module Flag.
Definition t : Type := Z.
Definition mask : Z := 2 ^ 64 - 1.
Definition Has (flag other : t) : bool := negb (Z.land flag other =? 0)%Z.
Definition Set_ (flag other : t) : t := Z.lor flag other.
Definition Remove (flag other : t) : t := Z.land flag (Z.lxor other mask).
End Flag.

(** [1 << iota] *)
Definition wherePKFlag : Flag.t := Z.shiftl 1 0.
Definition deletedFlag : Flag.t := Z.shiftl 1 1.
Definition allWithDeletedFlag : Flag.t := Z.shiftl 1 2.

(** ** baseQuery *)

Record baseQuery : Type := mkBaseQuery {
  model_ : option model;
  err : option error;
  tableModel_ : option tableModel;
  table : option Table;
  modelTable : QueryWithArgs;
  tables : list QueryWithArgs;
  columns : option (list QueryWithArgs);
  flags : Flag.t
}.

Definition with_err (q : baseQuery) (e : option error) : baseQuery :=
  mkBaseQuery (model_ q) e (tableModel_ q) (table q) (modelTable q)
    (tables q) (columns q) (flags q).

Definition with_flags (q : baseQuery) (f : Flag.t) : baseQuery :=
  mkBaseQuery (model_ q) (err q) (tableModel_ q) (table q) (modelTable q)
    (tables q) (columns q) f.

Definition with_columns (q : baseQuery) (c : option (list QueryWithArgs))
    : baseQuery :=
  mkBaseQuery (model_ q) (err q) (tableModel_ q) (table q) (modelTable q)
    (tables q) c (flags q).

Definition with_tables (q : baseQuery) (ts : list QueryWithArgs) : baseQuery :=
  mkBaseQuery (model_ q) (err q) (tableModel_ q) (table q) (modelTable q)
    ts (columns q) (flags q).

Definition with_modelTable (q : baseQuery) (mt : QueryWithArgs) : baseQuery :=
  mkBaseQuery (model_ q) (err q) (tableModel_ q) (table q) mt
    (tables q) (columns q) (flags q).

Definition setErr (q : baseQuery) (e : error) : baseQuery :=
  match err q with
  | None => with_err q (Some e)
  | Some _ => q
  end.

(** [newSingleModel(q.db, modeli)] lives outside this file; its outcome
    [r] is what [setTableModel] acts on. *)
Definition setTableModel (q : baseQuery) (r : error + model) : baseQuery :=
  match r with
  | inl e => setErr q e
  | inr m =>
      match m with
      | modelOfTable tm =>
          mkBaseQuery (Some m) (err q) (Some tm) (Some (tableModel_Table tm))
            (modelTable q) (tables q) (columns q) (flags q)
      | plainModel _ =>
          mkBaseQuery (Some m) (err q) (tableModel_ q) (table q)
            (modelTable q) (tables q) (columns q) (flags q)
      end
  end.

Definition checkSoftDelete (q : baseQuery) : option error :=
  match table q with
  | None => Some (errorsNew "bun: can't use soft deletes without a table")
  | Some t =>
      match SoftDeleteField t with
      | None => Some (fmtErrorf "%s does not have a soft delete field" [argTable t])
      | Some _ =>
          match tableModel_ q with
          | None => Some (errorsNew "bun: can't use soft deletes without a table model")
          | Some _ => None
          end
      end
  end.

Definition whereDeleted (q : baseQuery) : baseQuery :=
  match checkSoftDelete q with
  | Some e => setErr q e
  | None =>
      let q := with_flags q (Flag.Set_ (flags q) deletedFlag) in
      with_flags q (Flag.Remove (flags q) allWithDeletedFlag)
  end.

Definition whereAllWithDeleted (q : baseQuery) : baseQuery :=
  match checkSoftDelete q with
  | Some e => setErr q e
  | None =>
      let q := with_flags q (Flag.Set_ (flags q) allWithDeletedFlag) in
      with_flags q (Flag.Remove (flags q) deletedFlag)
  end.

Definition isSoftDelete (q : baseQuery) : bool :=
  match table q with
  | Some t =>
      match SoftDeleteField t with
      | Some _ => negb (Flag.Has (flags q) allWithDeletedFlag)
      | None => false
      end
  | None => false
  end.

(** [append(s, x)] on a slice that may be nil. *)
Definition slice_append {A : Type} (s : option (list A)) (x : A) : option (list A) :=
  match s with
  | None => Some [x]
  | Some l => Some (l ++ [x])%list
  end.

Definition slice_elems {A : Type} (s : option (list A)) : list A :=
  match s with
  | None => []
  | Some l => l
  end.

Definition addTable (q : baseQuery) (tbl : QueryWithArgs) : baseQuery :=
  with_tables q (tables q ++ [tbl])%list.

Definition addColumn (q : baseQuery) (column : QueryWithArgs) : baseQuery :=
  with_columns q (slice_append (columns q) column).

Definition isNil {A : Type} (s : option A) : bool :=
  match s with
  | None => true
  | Some _ => false
  end.

(** The loop of [_excludeColumn] from index [i] on; [all] is [q.columns]
    and [rest] what is left to visit. *)
Fixpoint _excludeColumn_from (i : nat) (rest all : list QueryWithArgs)
    (column : string) : option (list QueryWithArgs) :=
  match rest with
  | [] => None
  | col :: rest' =>
      if isNil (Args col) && (Query col =? column)
      then Some (firstn i all ++ skipn (S i) all)%list
      else _excludeColumn_from (S i) rest' all column
  end.

Definition _excludeColumn (q : baseQuery) (column : string) : baseQuery * bool :=
  match columns q with
  | None => (q, false)
  | Some cols =>
      match _excludeColumn_from 0 cols cols column with
      | Some cols' => (with_columns q (Some cols'), true)
      | None => (q, false)
      end
  end.

Fixpoint excludeColumn_loop (q : baseQuery) (cols : list string) : baseQuery :=
  match cols with
  | [] => q
  | column :: rest =>
      let (q', found) := _excludeColumn q column in
      if found then excludeColumn_loop q' rest
      else setErr q' (fmtErrorf "bun: can't find column=%q" [argString column])
  end.

Definition excludeColumn (q : baseQuery) (cols : list string) : result baseQuery :=
  q <- (match columns q with
        | None =>
            match table q with
            | None => Panic
            | Some t =>
                Ok (fold_left
                      (fun q f => with_columns q (slice_append (columns q) (UnsafeIdent (Name f))))
                      (Fields t) q)
            end
        | Some _ => Ok q
        end) ;;
  Ok (excludeColumn_loop q cols).

Definition modelHasTableName (q : baseQuery) : bool :=
  negb (IsZero (modelTable q)) || negb (isNil (table q)).

Definition hasTables (q : baseQuery) : bool :=
  modelHasTableName q || (0 <? List.length (tables q))%nat.

Definition _appendFirstTable (q : baseQuery) (fmter : QueryFormatter) (b : string)
    (withAlias : bool) : result string :=
  if negb (IsZero (modelTable q)) then AppendQuery (modelTable q) fmter b
  else
    match table q with
    | Some t =>
        let b := FormatQuery fmter b (TableSQLName t) in
        let b := if withAlias && negb (Alias t =? TableSQLName t)
                 then (b ++ " AS ") ++ Alias t else b in
        Ok b
    | None =>
        match tables q with
        | first :: _ => AppendQuery first fmter b
        | [] => Err (errorsNew "bun: query does not have a table")
        end
    end.

Definition appendFirstTable (q : baseQuery) (fmter : QueryFormatter) (b : string)
    : result string :=
  _appendFirstTable q fmter b false.

Definition appendFirstTableWithAlias (q : baseQuery) (fmter : QueryFormatter)
    (b : string) : result string :=
  _appendFirstTable q fmter b true.

(** A comma-separated list of fragments: the loop shared by
    [baseQuery.appendColumns], the column and INCLUDE lists of
    [CreateIndexQuery.AppendQuery], [appendReturning] and [appendSet]. *)
Fixpoint appendFragments (i : nat) (fs : list QueryWithArgs)
    (fmter : QueryFormatter) (b : string) : result string :=
  match fs with
  | [] => Ok b
  | f :: rest =>
      let b := if (0 <? i)%nat then b ++ ", " else b in
      b <- AppendQuery f fmter b ;;
      appendFragments (S i) rest fmter b
  end.

Definition baseQuery_appendColumns (q : baseQuery) (fmter : QueryFormatter)
    (b : string) : result string :=
  appendFragments 0 (slice_elems (columns q)) fmter b.

(** The package-level [appendColumns(b, table, fields)]. *)
Fixpoint appendColumns_from (i : nat) (b : string) (tbl : string)
    (fields : list Field) : string :=
  match fields with
  | [] => b
  | f :: rest =>
      let b := if (0 <? i)%nat then b ++ ", " else b in
      let b := if (0 <? String.length tbl)%nat then (b ++ tbl) ++ "." else b in
      appendColumns_from (S i) (b ++ SQLName f) tbl rest
  end.

Definition appendColumns (b : string) (tbl : string) (fields : list Field) : string :=
  appendColumns_from 0 b tbl fields.

Definition AppendArg (q : baseQuery) (fmter : QueryFormatter) (b : string)
    (name : string) : string * bool :=
  match table q with
  | None => (b, false)
  | Some t =>
      if name =? "TableName" then (FormatQuery fmter b (TableSQLName t), true)
      else if name =? "TableAlias" then (FormatQuery fmter b (Alias t), true)
      else if name =? "PKs" then (appendColumns b "" (PKs t), true)
      else if name =? "TablePKs" then (appendColumns b (Alias t) (PKs t), true)
      else if name =? "Columns" then (appendColumns b "" (Fields t), true)
      else if name =? "TableColumns" then (appendColumns b (Alias t) (Fields t), true)
      else (b, false)
  end.

(** ** WhereQuery *)

Record WhereQuery : Type := mkWhereQuery {
  where_ : list QueryWithSep
}.

Definition addWhere (q : WhereQuery) (w : QueryWithSep) : WhereQuery :=
  mkWhereQuery (where_ q ++ [w])%list.

Definition Where (q : WhereQuery) (query : string) (args : option (list Value))
    : WhereQuery :=
  addWhere q (SafeQueryWithSep query args " AND ").

Definition WhereOr (q : WhereQuery) (query : string) (args : option (list Value))
    : WhereQuery :=
  addWhere q (SafeQueryWithSep query args " OR ").

(** [fn] receives the fresh [q2] and mutates it; here it returns it. *)
Definition addWhereGroup (q : WhereQuery) (sep : string)
    (fn : WhereQuery -> WhereQuery) : WhereQuery :=
  let q2 := fn (mkWhereQuery []) in
  match where_ q2 with
  | [] => q
  | w0 :: rest =>
      let q2where := mkQuerySep (qwa w0) "" :: rest in
      let q := addWhere q (SafeQueryWithSep "" None (sep ++ "(")) in
      let q := mkWhereQuery (where_ q ++ q2where)%list in
      addWhere q (SafeQueryWithSep "" None ")")
  end.

Definition WhereGroup (q : WhereQuery) (sep : string)
    (fn : WhereQuery -> WhereQuery) : WhereQuery :=
  addWhereGroup q sep fn.

(** ** whereBaseQuery *)

Record whereBaseQuery : Type := mkWhereBaseQuery {
  base : baseQuery;
  wq : WhereQuery
}.

Fixpoint _appendWhere_from (i : nat) (fmter : QueryFormatter) (b : string)
    (ws : list QueryWithSep) : result string :=
  match ws with
  | [] => Ok b
  | w :: rest =>
      let b := if (0 <? i)%nat then b ++ Sep w else b in
      if (Query (qwa w) =? "") && isNil (Args (qwa w))
      then _appendWhere_from (S i) fmter b rest
      else
        let b := b ++ "(" in
        b <- AppendQuery (qwa w) fmter b ;;
        let b := b ++ ")" in
        _appendWhere_from (S i) fmter b rest
  end.

Definition _appendWhere (fmter : QueryFormatter) (b : string)
    (ws : list QueryWithSep) : result string :=
  _appendWhere_from 0 fmter b ws.

Definition appendWhereSoftDelete (q : whereBaseQuery) (b : string) : result string :=
  let b := b ++ "." in
  match tableModel_ (base q) with
  | None => Panic
  | Some tm =>
      match SoftDeleteField (tableModel_Table tm) with
      | None => Panic
      | Some f =>
          let b := b ++ SQLName f in
          if Flag.Has (flags (base q)) deletedFlag
          then Ok (b ++ " IS NOT NULL")
          else Ok (b ++ " IS NULL")
      end
  end.

Fixpoint appendWherePKStruct_from (i : nat) (t : Table) (pks : list Field)
    (fmter : QueryFormatter) (isTemplate : bool) (b : string) (strct : Value)
    : string :=
  match pks with
  | [] => b
  | f :: rest =>
      let b := if (0 <? i)%nat then b ++ " AND " else b in
      let b := b ++ Alias t in
      let b := b ++ "." in
      let b := b ++ SQLName f in
      let b := b ++ " = " in
      let b := if isTemplate then b ++ "?" else AppendValue f fmter b strct in
      appendWherePKStruct_from (S i) t rest fmter isTemplate b strct
  end.

Definition appendWherePKStruct (q : whereBaseQuery) (fmter : QueryFormatter)
    (b : string) (strct : Value) : result string :=
  let isTemplate := IsNopFormatter fmter in
  let b := b ++ "(" in
  match table (base q) with
  | None => Panic
  | Some t =>
      let b := appendWherePKStruct_from 0 t (PKs t) fmter isTemplate b strct in
      Ok (b ++ ")")
  end.

(** The inner loop of [appendWherePKSlice]: the key values of one
    element. *)
Fixpoint appendPKValues_from (i : nat) (pks : list Field) (fmter : QueryFormatter)
    (isTemplate : bool) (b : string) (el : Value) : string :=
  match pks with
  | [] => b
  | f :: rest =>
      let b := if (0 <? i)%nat then b ++ ", " else b in
      let b := if isTemplate then b ++ "?" else AppendValue f fmter b el in
      appendPKValues_from (S i) rest fmter isTemplate b el
  end.

(** The outer loop of [appendWherePKSlice], from index [i] on; it stops
    after the first element in template mode. *)
Fixpoint appendWherePKSlice_from (i : nat) (elems : list Value) (pks : list Field)
    (fmter : QueryFormatter) (isTemplate : bool) (b : string) : string :=
  match elems with
  | [] => b
  | e :: rest =>
      if (0 <? i)%nat && isTemplate then b
      else
        let b := if (0 <? i)%nat then b ++ ", " else b in
        let el := indirect e in
        let b := if (1 <? List.length pks)%nat then b ++ "(" else b in
        let b := appendPKValues_from 0 pks fmter isTemplate b el in
        let b := if (1 <? List.length pks)%nat then b ++ ")" else b in
        appendWherePKSlice_from (S i) rest pks fmter isTemplate b
  end.

Definition appendWherePKSlice (q : whereBaseQuery) (fmter : QueryFormatter)
    (b : string) (slice : list Value) : result string :=
  match table (base q) with
  | None => Panic
  | Some t =>
      let b := if (1 <? List.length (PKs t))%nat then b ++ "(" else b in
      let b := appendColumns b (Alias t) (PKs t) in
      let b := if (1 <? List.length (PKs t))%nat then b ++ ")" else b in
      let b := b ++ " IN (" in
      let isTemplate := IsNopFormatter fmter in
      let b := appendWherePKSlice_from 0 slice (PKs t) fmter isTemplate b in
      Ok (b ++ ")")
  end.

Definition appendWherePK (q : whereBaseQuery) (fmter : QueryFormatter)
    (b : string) : result string :=
  match table (base q) with
  | None => Panic
  | Some t =>
      match CheckPKs t with
      | Some e => Err e
      | None =>
          match tableModel_ (base q) with
          | Some (structTableModel _ strct) => appendWherePKStruct q fmter b strct
          | Some (sliceTableModel _ slice) => appendWherePKSlice q fmter b slice
          | tm => Err (fmtErrorf "bun: WherePK does not support %T" [argTypeOf tm])
          end
      end
  end.

Definition appendWhere (q : whereBaseQuery) (fmter : QueryFormatter) (b : string)
    : result string :=
  if (List.length (where_ (wq q)) =? 0)%nat
     && negb (isSoftDelete (base q))
     && negb (Flag.Has (flags (base q)) wherePKFlag)
  then Ok b
  else
    let b := b ++ " WHERE " in
    let startLen := String.length b in
    b <- (if (0 <? List.length (where_ (wq q)))%nat
          then _appendWhere fmter b (where_ (wq q))
          else Ok b) ;;
    b <- (if isSoftDelete (base q)
          then
            let b := if (startLen <? String.length b)%nat then b ++ " AND " else b in
            match tableModel_ (base q) with
            | None => Panic
            | Some tm => appendWhereSoftDelete q (b ++ Alias (tableModel_Table tm))
            end
          else Ok b) ;;
    if Flag.Has (flags (base q)) wherePKFlag
    then
      let b := if (startLen <? String.length b)%nat then b ++ " AND " else b in
      appendWherePK q fmter b
    else Ok b.

Definition mustAppendWhere (q : whereBaseQuery) (fmter : QueryFormatter)
    (b : string) : result string :=
  if (List.length (where_ (wq q)) =? 0)%nat
     && negb (Flag.Has (flags (base q)) wherePKFlag)
  then Err (errorsNew "bun: Update and Delete queries require Where clause (try WherePK)")
  else appendWhere q fmter b.

(** ** returningQuery *)

Record returningQuery : Type := mkReturningQuery {
  returning : list QueryWithArgs;
  returningFields : list Field
}.

Definition addReturning (q : returningQuery) (ret : QueryWithArgs) : returningQuery :=
  mkReturningQuery (returning q ++ [ret])%list (returningFields q).

(** [f == field] compares two [*schema.Field] pointers: they are equal
    when they hold the same address, whatever they point to. *)
Definition Field_eqb (f g : Field) : bool := (Addr f =? Addr g)%nat.

Definition addReturningField (q : returningQuery) (field : Field) : returningQuery :=
  if (0 <? List.length (returning q))%nat then q
  else if existsb (fun f => Field_eqb f field) (returningFields q) then q
  else mkReturningQuery (returning q) (returningFields q ++ [field])%list.

Definition hasReturning (q : returningQuery) : bool :=
  match returning q with
  | [r] =>
      if (Query r =? "null") || (Query r =? "NULL") then false
      else (0 <? List.length (returning q))%nat
           || (0 <? List.length (returningFields q))%nat
  | _ => (0 <? List.length (returning q))%nat
         || (0 <? List.length (returningFields q))%nat
  end.

Definition appendReturning (q : returningQuery) (fmter : QueryFormatter)
    (b : string) : result string :=
  if negb (hasReturning q) then Ok b
  else
    let b := b ++ " RETURNING " in
    b <- appendFragments 0 (returning q) fmter b ;;
    if (0 <? List.length (returning q))%nat then Ok b
    else Ok (appendColumns b "" (returningFields q)).

(** ** CreateIndexQuery *)

Record CreateIndexQuery : Type := mkCreateIndexQuery {
  wbq : whereBaseQuery;
  unique : bool;
  fulltext : bool;
  spatial : bool;
  concurrently : bool;
  ifNotExists : bool;
  index : QueryWithArgs;
  using_ : QueryWithArgs;
  include : list QueryWithArgs
}.

Definition zeroQuery : QueryWithArgs := {| Query := ""; Args := None |}.

Definition NewCreateIndexQuery : CreateIndexQuery :=
  mkCreateIndexQuery
    (mkWhereBaseQuery
       (mkBaseQuery None None None None zeroQuery [] None 0%Z)
       (mkWhereQuery []))
    false false false false false zeroQuery zeroQuery [].

Definition with_wbq (q : CreateIndexQuery) (w : whereBaseQuery) : CreateIndexQuery :=
  mkCreateIndexQuery w (unique q) (fulltext q) (spatial q) (concurrently q)
    (ifNotExists q) (index q) (using_ q) (include q).

Definition with_base (q : CreateIndexQuery) (bq : baseQuery) : CreateIndexQuery :=
  with_wbq q (mkWhereBaseQuery bq (wq (wbq q))).

Definition with_wq (q : CreateIndexQuery) (w : WhereQuery) : CreateIndexQuery :=
  with_wbq q (mkWhereBaseQuery (base (wbq q)) w).

Definition baseOf (q : CreateIndexQuery) : baseQuery := base (wbq q).

(** The builder calls of [CreateIndexQuery], together with the two
    soft-delete switches every statement inherits from [baseQuery]. *)
Inductive call : Type :=
| Model (r : error + model)
| Unique
| Concurrently
| IfNotExists
| Index (query : string) (args : option (list Value))
| Table_ (tbls : list string)
| TableExpr (query : string) (args : option (list Value))
| ModelTableExpr (query : string) (args : option (list Value))
| Using (query : string) (args : option (list Value))
| Column (cols : list string)
| ColumnExpr (query : string) (args : option (list Value))
| ExcludeColumn (cols : list string)
| Include (cols : list string)
| IncludeExpr (query : string) (args : option (list Value))
| CallWhere (query : string) (args : option (list Value))
| CallWhereOr (query : string) (args : option (list Value))
| CallWhereGroup (sep : string) (fn : WhereQuery -> WhereQuery)
| CallWhereDeleted
| CallWhereAllWithDeleted.

Definition apply (c : call) (q : CreateIndexQuery) : result CreateIndexQuery :=
  match c with
  | Model r => Ok (with_base q (setTableModel (baseOf q) r))
  | Unique =>
      Ok (mkCreateIndexQuery (wbq q) true (fulltext q) (spatial q)
            (concurrently q) (ifNotExists q) (index q) (using_ q) (include q))
  | Concurrently =>
      Ok (mkCreateIndexQuery (wbq q) (unique q) (fulltext q) (spatial q)
            true (ifNotExists q) (index q) (using_ q) (include q))
  | IfNotExists =>
      Ok (mkCreateIndexQuery (wbq q) (unique q) (fulltext q) (spatial q)
            (concurrently q) true (index q) (using_ q) (include q))
  | Index query args =>
      Ok (mkCreateIndexQuery (wbq q) (unique q) (fulltext q) (spatial q)
            (concurrently q) (ifNotExists q) (SafeQuery query args) (using_ q)
            (include q))
  | Table_ tbls =>
      Ok (with_base q
            (fold_left (fun bq tbl => addTable bq (UnsafeIdent tbl)) tbls (baseOf q)))
  | TableExpr query args =>
      Ok (with_base q (addTable (baseOf q) (SafeQuery query args)))
  | ModelTableExpr query args =>
      Ok (with_base q (with_modelTable (baseOf q) (SafeQuery query args)))
  | Using query args =>
      Ok (mkCreateIndexQuery (wbq q) (unique q) (fulltext q) (spatial q)
            (concurrently q) (ifNotExists q) (index q) (SafeQuery query args)
            (include q))
  | Column cols =>
      Ok (with_base q
            (fold_left (fun bq c => addColumn bq (UnsafeIdent c)) cols (baseOf q)))
  | ColumnExpr query args =>
      Ok (with_base q (addColumn (baseOf q) (SafeQuery query args)))
  | ExcludeColumn cols =>
      bq <- excludeColumn (baseOf q) cols ;; Ok (with_base q bq)
  | Include cols =>
      Ok (mkCreateIndexQuery (wbq q) (unique q) (fulltext q) (spatial q)
            (concurrently q) (ifNotExists q) (index q) (using_ q)
            (fold_left (fun inc c => inc ++ [UnsafeIdent c])%list cols (include q)))
  | IncludeExpr query args =>
      Ok (mkCreateIndexQuery (wbq q) (unique q) (fulltext q) (spatial q)
            (concurrently q) (ifNotExists q) (index q) (using_ q)
            (include q ++ [SafeQuery query args])%list)
  | CallWhere query args =>
      Ok (with_wq q (addWhere (wq (wbq q)) (SafeQueryWithSep query args " AND ")))
  | CallWhereOr query args =>
      Ok (with_wq q (addWhere (wq (wbq q)) (SafeQueryWithSep query args " OR ")))
  | CallWhereGroup sep fn =>
      Ok (with_wq q (addWhereGroup (wq (wbq q)) sep fn))
  | CallWhereDeleted => Ok (with_base q (whereDeleted (baseOf q)))
  | CallWhereAllWithDeleted => Ok (with_base q (whereAllWithDeleted (baseOf q)))
  end.

(** A chain of builder calls, left to right. *)
Fixpoint chain (cs : list call) (q : CreateIndexQuery) : result CreateIndexQuery :=
  match cs with
  | [] => Ok q
  | c :: rest => q <- apply c q ;; chain rest q
  end.

Definition CreateIndexQuery_AppendQuery (q : CreateIndexQuery)
    (fmter : QueryFormatter) (b : string) : result string :=
  match err (baseOf q) with
  | Some e => Err e
  | None =>
      let b := b ++ "CREATE " in
      let b := if unique q then b ++ "UNIQUE " else b in
      let b := if fulltext q then b ++ "FULLTEXT " else b in
      let b := if spatial q then b ++ "SPATIAL " else b in
      let b := b ++ "INDEX " in
      let b := if concurrently q then b ++ "CONCURRENTLY " else b in
      let b := if ifNotExists q then b ++ "IF NOT EXISTS " else b in
      b <- AppendQuery (index q) fmter b ;;
      let b := b ++ " ON " in
      b <- appendFirstTable (baseOf q) fmter b ;;
      b <- (if negb (IsZero (using_ q))
            then AppendQuery (using_ q) fmter (b ++ " USING ")
            else Ok b) ;;
      let b := b ++ " (" in
      b <- appendFragments 0 (slice_elems (columns (baseOf q))) fmter b ;;
      let b := b ++ ")" in
      b <- (if (0 <? List.length (include q))%nat
            then
              b <- appendFragments 0 (include q) fmter (b ++ " INCLUDE (") ;;
              Ok (b ++ ")")
            else Ok b) ;;
      appendWhere (wbq q) fmter b
  end.

(** ** Auxiliary notions for the statements *)

(** [keeps_err q q']: going from [q] to [q'] a recorded error stays as
    it is.  [keeps_flags q q']: the flags stay as they are, or end up
    with at most one of the two soft-delete flags set. *)
Definition keeps_err (q q' : baseQuery) : Prop :=
  forall e, err q = Some e -> err q' = Some e.

Definition exclusive (f : Flag.t) : bool :=
  negb (Flag.Has f deletedFlag && Flag.Has f allWithDeletedFlag).

Definition keeps_flags (q q' : baseQuery) : Prop :=
  flags q' = flags q \/ exclusive (flags q') = true.

(** ** Formatters and tables of the examples *)

(** A literal formatter: integers in decimal, strings between single
    quotes; fragments and queries are copied as they are. *)
Definition literalValue (v : Value) : string :=
  match v with
  | VInt n => NilZero.string_of_int (Z.to_int n)
  | VString s => "'" ++ s ++ "'"
  | _ => "NULL"
  end.

Definition literalFormatter : QueryFormatter :=
  {| isNop := false;
     fmtQuery := fun query => query;
     fmtFragment := fun q => inl (Query q);
     fmtValue := literalValue |}.

(** The template formatter, [sqlfmt.IsNopFormatter] holds of it. *)
Definition nopFormatter : QueryFormatter :=
  {| isNop := true;
     fmtQuery := fun query => query;
     fmtFragment := fun q => inl (Query q);
     fmtValue := literalValue |}.

Definition idField : Field :=
  {| Addr := 1; Name := "id"; SQLName := "id"; GoName := "ID"; IsPK := true |}.
Definition tenantField : Field :=
  {| Addr := 2; Name := "tenant"; SQLName := "tenant"; GoName := "Tenant";
     IsPK := true |}.
Definition nameField : Field :=
  {| Addr := 3; Name := "name"; SQLName := "name"; GoName := "Name";
     IsPK := false |}.
Definition deletedAtField : Field :=
  {| Addr := 4; Name := "deleted_at"; SQLName := "deleted_at"; GoName := "DeletedAt";
     IsPK := false |}.

(** Two-column key [(id, tenant)], alias [t]. *)
Definition accountTable : Table :=
  {| TypeName := "Account"; TableSQLName := "accounts"; Alias := "t";
     Fields := [idField; tenantField; nameField];
     PKs := [idField; tenantField];
     DataFields := [nameField];
     SoftDeleteField := None |}.

Definition account : Value :=
  VStruct [("ID", VInt 5); ("Tenant", VString "acme"); ("Name", VString "a")].

(** Single key [id]; [itemTable a] has alias [a]. *)
Definition itemTable (a : string) : Table :=
  {| TypeName := "Item"; TableSQLName := "items"; Alias := a;
     Fields := [idField; nameField];
     PKs := [idField];
     DataFields := [nameField];
     SoftDeleteField := None |}.

Definition items : list Value :=
  [VStruct [("ID", VInt 1)]; VStruct [("ID", VInt 2)]; VStruct [("ID", VInt 3)]].

(** A table with a soft-delete column. *)
Definition userTable : Table :=
  {| TypeName := "User"; TableSQLName := "users"; Alias := "u";
     Fields := [idField; nameField; deletedAtField];
     PKs := [idField];
     DataFields := [nameField; deletedAtField];
     SoftDeleteField := Some deletedAtField |}.

Definition user : Value := VStruct [("ID", VInt 5); ("Name", VString "bob")].

(** A [baseQuery] bound to table model [tm], nothing else set. *)
Definition boundTo (tm : tableModel) (f : Flag.t) : baseQuery :=
  mkBaseQuery (Some (modelOfTable tm)) None (Some tm) (Some (tableModel_Table tm))
    zeroQuery [] None f.

(** The names [AppendArg] resolves. *)
Definition argNames : list string :=
  ["TableName"; "TableAlias"; "PKs"; "TablePKs"; "Columns"; "TableColumns"].

(** A column list as text: the columns' SQL names, each behind
    [tbl.] when [tbl] is not empty, with [", "] in between. *)
Definition qualifier (tbl : string) : string :=
  if (0 <? String.length tbl)%nat then tbl ++ "." else "".

Definition columnList (tbl : string) (fields : list Field) : string :=
  String.concat ", " (map (fun f => qualifier tbl ++ SQLName f) fields).

(** Comparison of two strings that ignores the case of ASCII letters. *)
Definition toLower (c : ascii) : ascii :=
  let n := nat_of_ascii c in
  if (65 <=? n)%nat && (n <=? 90)%nat then ascii_of_nat (n + 32) else c.

Fixpoint lower (s : string) : string :=
  match s with
  | EmptyString => EmptyString
  | String c s' => String (toLower c) (lower s')
  end.

Definition EqualFold (a b : string) : bool := (lower a =? lower b).

(** [matches name c]: the fragment [c] is the raw identifier [name]. *)
Definition matches (name : string) (c : QueryWithArgs) : bool :=
  isNil (Args c) && (Query c =? name).

(** The column list [excludeColumn] works on: the explicit one, or the
    table's fields as identifiers when none was ever set. *)
Definition effectiveColumns (q : baseQuery) (t : Table) : option (list QueryWithArgs) :=
  match columns q with
  | Some cs => Some cs
  | None =>
      match Fields t with
      | [] => None
      | fs => Some (map (fun f => UnsafeIdent (Name f)) fs)
      end
  end.

(** The error of [mustAppendWhere]. *)
Definition errWhereRequired : error :=
  errorsNew "bun: Update and Delete queries require Where clause (try WherePK)".

(** The soft-delete predicate of table [t] with soft-delete field [sf]
    under flags [f]. *)
Definition softDeletePredicate (t : Table) (sf : Field) (f : Flag.t) : string :=
  Alias t ++ "." ++ SQLName sf
  ++ if Flag.Has f deletedFlag then " IS NOT NULL" else " IS NULL".

(** The errors [appendWhere] can hand back: a collaborator's, or one of
    the two of [appendWherePK]. *)
Definition whereRenderError (e : error) : Prop :=
  (exists msg, e = external msg)
  \/ e = errorsNew "table has no primary key"
  \/ (exists tm, e = fmtErrorf "bun: WherePK does not support %T" [argTypeOf tm]).

(** ** The rest of query_base.go *)

Definition hasMultiTables (q : baseQuery) : bool :=
  if modelHasTableName q then (1 <=? List.length (tables q))%nat
  else (2 <=? List.length (tables q))%nat.

(** [tables[1:]] on an empty slice is a run-time panic. *)
Definition appendOtherTables (q : baseQuery) (fmter : QueryFormatter) (b : string)
    : result string :=
  tbls <- (if negb (modelHasTableName q)
           then match tables q with
                | [] => Panic
                | _ :: rest => Ok rest
                end
           else Ok (tables q)) ;;
  appendFragments 0 tbls fmter b.

(** [schema.Table.Field(name)] is outside this file: [lookup t name] is
    the field it finds or the error it returns.  The loop of
    [_getFields], [fields] being the slice built so far; [q.table] is
    dereferenced only when a column without arguments is reached. *)
Fixpoint _getFields_loop (lookup : Table -> string -> error + Field)
    (t : option Table) (cols : list QueryWithArgs) (omitPK : bool)
    (fields : list Field) : result (list Field) :=
  match cols with
  | [] => Ok fields
  | col :: rest =>
      if negb (isNil (Args col)) then _getFields_loop lookup t rest omitPK fields
      else
        match t with
        | None => Panic
        | Some tbl =>
            match lookup tbl (Query col) with
            | inl e => Err e
            | inr field =>
                if omitPK && IsPK field
                then _getFields_loop lookup t rest omitPK fields
                else _getFields_loop lookup t rest omitPK (fields ++ [field])%list
            end
        end
  end.

Definition _getFields (lookup : Table -> string -> error + Field)
    (q : baseQuery) (omitPK : bool) : result (list Field) :=
  _getFields_loop lookup (table q) (slice_elems (columns q)) omitPK [].

Definition getFields (lookup : Table -> string -> error + Field)
    (q : baseQuery) : result (list Field) :=
  match tableModel_ q with
  | None => Panic
  | Some tm =>
      if (List.length (slice_elems (columns q)) =? 0)%nat
      then Ok (Fields (tableModel_Table tm))
      else _getFields lookup q false
  end.

Definition getDataFields (lookup : Table -> string -> error + Field)
    (q : baseQuery) : result (list Field) :=
  if (List.length (slice_elems (columns q)) =? 0)%nat
  then match table q with
       | None => Panic
       | Some t => Ok (DataFields t)
       end
  else _getFields lookup q true.

(** ** customValueQuery and setQuery *)

Record columnValue : Type := mkColumnValue {
  column : string;
  value : QueryWithArgs
}.

(** [modelValues] is a Go map, [None] while it is nil. *)
Record customValueQuery : Type := mkCustomValueQuery {
  modelValues : option (string -> option QueryWithArgs);
  extraValues : list columnValue
}.

Definition mapLookup (m : option (string -> option QueryWithArgs)) (k : string)
    : option QueryWithArgs :=
  match m with
  | None => None
  | Some f => f k
  end.

(** [fieldMap] stands for [table.FieldMap]. *)
Definition addValue (q : customValueQuery) (fieldMap : string -> option Field)
    (col : string) (val : string) (args : option (list Value)) : customValueQuery :=
  match fieldMap col with
  | Some _ =>
      let m := match modelValues q with
               | None => fun _ => None
               | Some f => f
               end in
      mkCustomValueQuery
        (Some (fun k => if (k =? col) then Some (SafeQuery val args) else m k))
        (extraValues q)
  | None =>
      mkCustomValueQuery (modelValues q)
        (extraValues q ++ [mkColumnValue col (SafeQuery val args)])%list
  end.

Record setQuery : Type := mkSetQuery {
  set_ : list QueryWithArgs
}.

Definition addSet (q : setQuery) (s : QueryWithArgs) : setQuery :=
  mkSetQuery (set_ q ++ [s])%list.

Definition appendSet (q : setQuery) (fmter : QueryFormatter) (b : string)
    : result string :=
  appendFragments 0 (set_ q) fmter (b ++ " SET ").

(** ** Texts the statements below speak of *)

(** The texts of a list of fragments, or the error of the first one
    that does not render. *)
Fixpoint fragmentTexts (fmter : QueryFormatter) (fs : list QueryWithArgs)
    : result (list string) :=
  match fs with
  | [] => Ok []
  | f :: rest =>
      match fmtFragment fmter f with
      | inl s => ts <- fragmentTexts fmter rest ;; Ok (s :: ts)
      | inr msg => Err (external msg)
      end
  end.

Definition errNoTable : error := errorsNew "bun: query does not have a table".

(** An optional keyword. *)
Definition opt (c : bool) (s : string) : string := if c then s else "".

(** [extends b out]: [out] is [b] with something appended. *)
Definition extends (b out : string) : Prop := exists t, out = b ++ t.

(** The condition under which [appendWhere] has nothing to write. *)
Definition nothingToFilter (q : whereBaseQuery) : bool :=
  (List.length (where_ (wq q)) =? 0)%nat
  && negb (isSoftDelete (base q))
  && negb (Flag.Has (flags (base q)) wherePKFlag).

(** The value of a key column as the predicate shows it. *)
Definition pkValueText (fmter : QueryFormatter) (f : Field) (v : Value) : string :=
  if IsNopFormatter fmter then "?" else fmtValue fmter (fieldValue f v).

(** Parentheses around a composite key. *)
Definition wrapComposite (pks : list Field) (s : string) : string :=
  if (1 <? List.length pks)%nat then "(" ++ s ++ ")" else s.

(** The elements an IN list shows: all of them, or the first one only
    under the template formatter. *)
Definition shownElements (fmter : QueryFormatter) (slice : list Value) : list Value :=
  if IsNopFormatter fmter then firstn 1 slice else slice.

(** What every chain of builder calls keeps of a [baseQuery]: the bound
    table is the table of the bound table model, and the restrict-to-PK
    flag is unset (no call of [CreateIndexQuery] sets it). *)
Definition builderInvariant (q : baseQuery) : Prop :=
  table q = option_map tableModel_Table (tableModel_ q)
  /\ Flag.Has (flags q) wherePKFlag = false.

(** ** WITH *)

(** A sub-query attached by [addWith]: [sqlfmt.QueryAppender], which may
    also be a [sqlfmt.ColumnsAppender].  As for the formatter, each
    operation is the text it appends or the error it returns. *)
Record QueryAppender : Type := mkQueryAppender {
  qaQuery : QueryFormatter -> string + string;
  qaColumns : option (QueryFormatter -> string + string)
}.

Record withQuery : Type := mkWithQuery {
  withName : string;
  withBody : QueryAppender
}.

Definition addWith (withs : list withQuery) (name : string) (query : QueryAppender)
    : list withQuery :=
  (withs ++ [mkWithQuery name query])%list.

Definition appendText (r : string + string) (b : string) : result string :=
  match r with
  | inl s => Ok (b ++ s)
  | inr msg => Err (external msg)
  end.

(** The loop of [appendWith]; [ident fmter name] is what
    [sqlfmt.AppendIdent] appends for [name]. *)
Fixpoint appendWith_from (i : nat) (ident : QueryFormatter -> string -> string)
    (withs : list withQuery) (fmter : QueryFormatter) (b : string)
    : result string :=
  match withs with
  | [] => Ok b
  | w :: rest =>
      let b := if (0 <? i)%nat then b ++ ", " else b in
      let b := b ++ ident fmter (withName w) in
      b <- (match qaColumns (withBody w) with
            | Some cols =>
                b <- appendText (cols fmter) (b ++ " (") ;;
                Ok (b ++ ")")
            | None => Ok b
            end) ;;
      let b := b ++ " AS (" in
      b <- appendText (qaQuery (withBody w) fmter) b ;;
      let b := b ++ ")" in
      appendWith_from (S i) ident rest fmter b
  end.

(** [baseQuery.appendWith], the list [q.with] being [withs]. *)
Definition appendWith (ident : QueryFormatter -> string -> string)
    (withs : list withQuery) (fmter : QueryFormatter) (b : string)
    : result string :=
  if (List.length withs =? 0)%nat then Ok b
  else
    let b := b ++ "WITH " in
    b <- appendWith_from 0 ident withs fmter b ;;
    Ok (b ++ " ").

(** One entry of a WITH clause as text, or the error of its column list
    or, after that, of its body. *)
Definition withText (ident : QueryFormatter -> string -> string)
    (fmter : QueryFormatter) (w : withQuery) : result string :=
  cols <- (match qaColumns (withBody w) with
           | Some c => t <- appendText (c fmter) "" ;; Ok (" (" ++ t ++ ")")
           | None => Ok ""
           end) ;;
  body <- appendText (qaQuery (withBody w) fmter) "" ;;
  Ok (ident fmter (withName w) ++ cols ++ " AS (" ++ body ++ ")").

Fixpoint withTexts (ident : QueryFormatter -> string -> string)
    (fmter : QueryFormatter) (withs : list withQuery) : result (list string) :=
  match withs with
  | [] => Ok []
  | w :: rest =>
      t <- withText ident fmter w ;;
      ts <- withTexts ident fmter rest ;;
      Ok (t :: ts)
  end.

(** ** Scanning integers (schema/scan.go) *)







(** * Properties *)

(** ** Buffers *)

Lemma append_assoc (a b c : string) : (a ++ b) ++ c = a ++ (b ++ c).
Proof.
  induction a as [|ch a IH]; simpl; [reflexivity | now rewrite IH].
Qed.

Lemma append_nil_r (a : string) : a ++ "" = a.
Proof.
  induction a as [|ch a IH]; simpl; [reflexivity | now rewrite IH].
Qed.

Lemma length_append (a b : string) :
  String.length (a ++ b) = (String.length a + String.length b)%nat.
Proof.
  induction a as [|ch a IH]; simpl; [reflexivity | now rewrite IH].
Qed.

(** ** Flags *)

Lemma land_bit (f k : Z) :
  (0 <= k)%Z ->
  Z.land f (Z.shiftl 1 k) = if Z.testbit f k then Z.shiftl 1 k else 0%Z.
Proof.
  intros Hk. rewrite Z.shiftl_1_l.
  apply Z.bits_inj'. intros n Hn.
  rewrite Z.land_spec, Z.pow2_bits_eqb by assumption.
  destruct (Z.eqb_spec k n) as [->|Hne].
  - rewrite andb_true_r. destruct (Z.testbit f n) eqn:E.
    + now rewrite Z.pow2_bits_true.
    + now rewrite Z.bits_0.
  - rewrite andb_false_r. destruct (Z.testbit f k).
    + rewrite Z.pow2_bits_false; [reflexivity | assumption].
    + now rewrite Z.bits_0.
Qed.

Lemma Has_bit (f k : Z) :
  (0 <= k)%Z -> Flag.Has f (Z.shiftl 1 k) = Z.testbit f k.
Proof.
  intros Hk. unfold Flag.Has. rewrite land_bit by assumption.
  destruct (Z.testbit f k); [|reflexivity].
  rewrite Z.shiftl_1_l.
  assert (0 < 2 ^ k)%Z by (apply Z.pow_pos_nonneg; lia).
  destruct (Z.eqb_spec (2 ^ k) 0); [lia | reflexivity].
Qed.

Lemma Has_Set (f j k : Z) :
  (0 <= j)%Z -> (0 <= k)%Z ->
  Flag.Has (Flag.Set_ f (Z.shiftl 1 k)) (Z.shiftl 1 j)
  = Z.testbit f j || (k =? j)%Z.
Proof.
  intros Hj Hk. rewrite Has_bit by assumption. unfold Flag.Set_.
  now rewrite Z.lor_spec, Z.shiftl_1_l, Z.pow2_bits_eqb.
Qed.

Lemma mask_bit (j : Z) : (0 <= j < 64)%Z -> Z.testbit Flag.mask j = true.
Proof.
  intros Hj. change Flag.mask with (Z.ones 64).
  apply Z.ones_spec_low. assumption.
Qed.

Lemma Has_Remove (f j k : Z) :
  (0 <= j < 64)%Z -> (0 <= k)%Z ->
  Flag.Has (Flag.Remove f (Z.shiftl 1 k)) (Z.shiftl 1 j)
  = Z.testbit f j && negb (k =? j)%Z.
Proof.
  intros Hj Hk. rewrite Has_bit by lia. unfold Flag.Remove.
  rewrite Z.land_spec, Z.lxor_spec, Z.shiftl_1_l, Z.pow2_bits_eqb by assumption.
  rewrite mask_bit by assumption.
  now destruct (k =? j)%Z.
Qed.

(** ** What the builder calls leave alone *)

Lemma err_setErr (q : baseQuery) (e : error) :
  err (setErr q e) = Some (match err q with Some e0 => e0 | None => e end).
Proof.
  unfold setErr. destruct (err q) eqn:E; simpl; [assumption | reflexivity].
Qed.

Lemma flags_setErr (q : baseQuery) (e : error) : flags (setErr q e) = flags q.
Proof.
  unfold setErr. destruct (err q); reflexivity.
Qed.

Lemma keeps_err_setErr (q : baseQuery) (e : error) : keeps_err q (setErr q e).
Proof.
  intros e0 H. rewrite err_setErr, H. reflexivity.
Qed.

Lemma exclusive_deleted (f : Flag.t) :
  exclusive (Flag.Remove (Flag.Set_ f deletedFlag) allWithDeletedFlag) = true.
Proof.
  unfold exclusive, deletedFlag, allWithDeletedFlag.
  rewrite (Has_Remove _ 2 2) by lia. simpl. now rewrite !andb_false_r.
Qed.

Lemma exclusive_allWithDeleted (f : Flag.t) :
  exclusive (Flag.Remove (Flag.Set_ f allWithDeletedFlag) deletedFlag) = true.
Proof.
  unfold exclusive, deletedFlag, allWithDeletedFlag.
  rewrite (Has_Remove _ 1 1) by lia. simpl. now rewrite !andb_false_r.
Qed.

Lemma materialize_frame (fs : list Field) (q : baseQuery) :
  let q' := fold_left
              (fun q f => with_columns q (slice_append (columns q) (UnsafeIdent (Name f))))
              fs q in
  err q' = err q /\ flags q' = flags q /\ table q' = table q.
Proof.
  revert q. induction fs as [|f fs IH]; intros q; simpl; [now auto|].
  specialize (IH (with_columns q (slice_append (columns q) (UnsafeIdent (Name f))))).
  simpl in IH. exact IH.
Qed.

Lemma _excludeColumn_frame (q : baseQuery) (column : string) :
  err (fst (_excludeColumn q column)) = err q
  /\ flags (fst (_excludeColumn q column)) = flags q.
Proof.
  unfold _excludeColumn. destruct (columns q) as [cols|]; [|now auto].
  destruct (_excludeColumn_from 0 cols cols column); now auto.
Qed.

Lemma excludeColumn_loop_frame (cols : list string) (q : baseQuery) :
  keeps_err q (excludeColumn_loop q cols)
  /\ flags (excludeColumn_loop q cols) = flags q.
Proof.
  revert q. induction cols as [|c cols IH]; intros q; simpl.
  - split; [intros e H; exact H | reflexivity].
  - destruct (_excludeColumn_frame q c) as [He Hf].
    destruct (_excludeColumn q c) as [q1 found]; simpl in He, Hf.
    destruct found.
    + destruct (IH q1) as [IHe IHf]. split.
      * intros e H. apply IHe. now rewrite He.
      * now rewrite IHf.
    + split.
      * intros e H. apply keeps_err_setErr. now rewrite He.
      * now rewrite flags_setErr.
Qed.

Lemma excludeColumn_frame (q q' : baseQuery) (cols : list string) :
  excludeColumn q cols = Ok q' -> keeps_err q q' /\ flags q' = flags q.
Proof.
  unfold excludeColumn. intros H.
  destruct (columns q) as [cs|].
  - simpl in H. injection H as <-. apply excludeColumn_loop_frame.
  - destruct (table q) as [t|]; [|discriminate]. simpl in H. injection H as <-.
    destruct (materialize_frame (Fields t) q) as (He & Hf & _).
    destruct (excludeColumn_loop_frame cols
                (fold_left
                   (fun q f => with_columns q (slice_append (columns q) (UnsafeIdent (Name f))))
                   (Fields t) q)) as [Le Lf].
    split.
    + intros e H. apply Le. now rewrite He.
    + now rewrite Lf.
Qed.

Lemma whereDeleted_frame (q : baseQuery) :
  keeps_err q (whereDeleted q) /\ keeps_flags q (whereDeleted q).
Proof.
  unfold whereDeleted. destruct (checkSoftDelete q).
  - split; [apply keeps_err_setErr | left; apply flags_setErr].
  - split; [intros e H; exact H | right; simpl; apply exclusive_deleted].
Qed.

Lemma whereAllWithDeleted_frame (q : baseQuery) :
  keeps_err q (whereAllWithDeleted q) /\ keeps_flags q (whereAllWithDeleted q).
Proof.
  unfold whereAllWithDeleted. destruct (checkSoftDelete q).
  - split; [apply keeps_err_setErr | left; apply flags_setErr].
  - split; [intros e H; exact H | right; simpl; apply exclusive_allWithDeleted].
Qed.

Lemma fold_addTable_frame (tbls : list string) (q : baseQuery) :
  let q' := fold_left (fun bq tbl => addTable bq (UnsafeIdent tbl)) tbls q in
  err q' = err q /\ flags q' = flags q.
Proof.
  revert q. induction tbls as [|t tbls IH]; intros q; simpl; [now auto|].
  apply (IH (addTable q (UnsafeIdent t))).
Qed.

Lemma fold_addColumn_frame (cols : list string) (q : baseQuery) :
  let q' := fold_left (fun bq c => addColumn bq (UnsafeIdent c)) cols q in
  err q' = err q /\ flags q' = flags q.
Proof.
  revert q. induction cols as [|c cols IH]; intros q; simpl; [now auto|].
  apply (IH (addColumn q (UnsafeIdent c))).
Qed.

Lemma setTableModel_frame (q : baseQuery) (r : error + model) :
  keeps_err q (setTableModel q r) /\ flags (setTableModel q r) = flags q.
Proof.
  destruct r as [e|[tm|k]]; simpl.
  - split; [apply keeps_err_setErr | apply flags_setErr].
  - split; [intros e H; exact H | reflexivity].
  - split; [intros e H; exact H | reflexivity].
Qed.

Lemma apply_frame (c : call) (q q' : CreateIndexQuery) :
  apply c q = Ok q' ->
  keeps_err (baseOf q) (baseOf q') /\ keeps_flags (baseOf q) (baseOf q').
Proof.
  assert (Hsame : forall bq bq' : baseQuery,
             err bq' = err bq -> flags bq' = flags bq ->
             keeps_err bq bq' /\ keeps_flags bq bq').
  { intros bq bq' He Hf. split; [intros e H; now rewrite He | now left]. }
  destruct c; simpl; intros H;
    try (injection H as <-; apply Hsame; reflexivity).
  - injection H as <-. destruct (setTableModel_frame (baseOf q) r) as [He Hf].
    split; [exact He | left; exact Hf].
  - injection H as <-. apply Hsame; apply fold_addTable_frame.
  - injection H as <-. apply Hsame; apply fold_addColumn_frame.
  - destruct (excludeColumn (baseOf q) cols) as [bq| |] eqn:E; try discriminate.
    simpl in H. injection H as <-.
    destruct (excludeColumn_frame _ _ _ E) as [He Hf].
    split; [exact He | left; exact Hf].
  - injection H as <-. apply whereDeleted_frame.
  - injection H as <-. apply whereAllWithDeleted_frame.
Qed.

Lemma chain_frame (cs : list call) (q q' : CreateIndexQuery) :
  chain cs q = Ok q' ->
  keeps_err (baseOf q) (baseOf q')
  /\ (exclusive (flags (baseOf q)) = true -> exclusive (flags (baseOf q')) = true).
Proof.
  revert q. induction cs as [|c cs IH]; intros q; simpl; intros H.
  - injection H as <-. split; [intros e He; exact He | auto].
  - destruct (apply c q) as [q1| |] eqn:E; try discriminate. simpl in H.
    destruct (apply_frame _ _ _ E) as [He Hf].
    destruct (IH _ H) as [IHe IHf]. split.
    + intros e H0. apply IHe, He, H0.
    + intros Hx. apply IHf. destruct Hf as [Hf|Hf]; [now rewrite Hf | exact Hf].
Qed.

(** ** The sticky error *)

(** C1: once [setErr] has recorded an error, no later [setErr] and no
    later builder call replaces it, and [AppendQuery] on the resulting
    statement returns exactly that error and no buffer. *)
Theorem sticky_error_first_wins
    (q0 q' : CreateIndexQuery) (e : error) (later : list error)
    (cs : list call) (fmter : QueryFormatter) (b : string) :
  err (baseOf q0) = None ->
  chain cs (with_base q0 (setErr (baseOf q0) e)) = Ok q' ->
  err (setErr (baseOf q0) e) = Some e
  /\ err (fold_left setErr later (setErr (baseOf q0) e)) = Some e
  /\ err (baseOf q') = Some e
  /\ CreateIndexQuery_AppendQuery q' fmter b = Err e.
Proof.
  intros Hnone Hrun.
  assert (H1 : err (setErr (baseOf q0) e) = Some e)
    by (rewrite err_setErr, Hnone; reflexivity).
  assert (H3 : err (baseOf q') = Some e).
  { destruct (chain_frame _ _ _ Hrun) as [Hk _]. apply Hk. exact H1. }
  repeat split; try assumption.
  - clear Hrun H3. revert H1. generalize (setErr (baseOf q0) e).
    induction later as [|e1 later IH]; intros bq Hbq; simpl; [exact Hbq|].
    apply IH. apply keeps_err_setErr. exact Hbq.
  - unfold CreateIndexQuery_AppendQuery. now rewrite H3.
Qed.

(** ** Soft-delete switches *)

Lemma checkSoftDelete_flags (q : baseQuery) (f : Flag.t) :
  checkSoftDelete (with_flags q f) = checkSoftDelete q.
Proof. reflexivity. Qed.

(** C8: with a soft-delete field and a bound model, [whereDeleted] then
    [whereAllWithDeleted] leaves the include-all flag set and the
    only-deleted flag clear (and the other way round); no chain of
    builder calls sets both; on a table without a soft-delete field
    either call only records the error that names the table, the flags
    staying as they were. *)
Theorem soft_delete_flags_exclusive :
  (forall (q : baseQuery) (t : Table) (f : Field) (tm : tableModel),
      table q = Some t -> SoftDeleteField t = Some f -> tableModel_ q = Some tm ->
      (Flag.Has (flags (whereAllWithDeleted (whereDeleted q))) allWithDeletedFlag = true
       /\ Flag.Has (flags (whereAllWithDeleted (whereDeleted q))) deletedFlag = false)
      /\ (Flag.Has (flags (whereDeleted (whereAllWithDeleted q))) deletedFlag = true
          /\ Flag.Has (flags (whereDeleted (whereAllWithDeleted q))) allWithDeletedFlag = false))
  /\ (forall (cs : list call) (q q' : CreateIndexQuery),
         exclusive (flags (baseOf q)) = true -> chain cs q = Ok q' ->
         exclusive (flags (baseOf q')) = true)
  /\ (forall (q : baseQuery) (t : Table),
         table q = Some t -> SoftDeleteField t = None ->
         let e := fmtErrorf "%s does not have a soft delete field" [argTable t] in
         (whereDeleted q = setErr q e /\ flags (whereDeleted q) = flags q)
         /\ (whereAllWithDeleted q = setErr q e
             /\ flags (whereAllWithDeleted q) = flags q)).
Proof.
  split; [|split].
  - intros q t f tm Ht Hf Htm.
    assert (Hc : checkSoftDelete q = None)
      by (unfold checkSoftDelete; now rewrite Ht, Hf, Htm).
    unfold whereAllWithDeleted, whereDeleted.
    rewrite Hc. simpl. rewrite !checkSoftDelete_flags, Hc. simpl.
    unfold deletedFlag, allWithDeletedFlag.
    repeat split.
    + rewrite (Has_Remove _ 2 1) by lia. rewrite <- (Has_bit _ 2) by lia.
      rewrite (Has_Set _ 2 2) by lia. simpl. now rewrite orb_true_r.
    + rewrite (Has_Remove _ 1 1) by lia. simpl. now rewrite andb_false_r.
    + rewrite (Has_Remove _ 1 2) by lia. rewrite <- (Has_bit _ 1) by lia.
      rewrite (Has_Set _ 1 1) by lia. simpl. now rewrite orb_true_r.
    + rewrite (Has_Remove _ 2 2) by lia. simpl. now rewrite andb_false_r.
  - intros cs q q' Hx Hrun. destruct (chain_frame _ _ _ Hrun) as [_ H]. auto.
  - intros q t Ht Hf e.
    assert (Hc : checkSoftDelete q = Some e)
      by (unfold checkSoftDelete; now rewrite Ht, Hf).
    unfold whereAllWithDeleted, whereDeleted. rewrite Hc.
    repeat split; apply flags_setErr.
Qed.

Lemma sticky_error_first_wins_witness :
  let q0 := NewCreateIndexQuery in
  let e := errorsNew "first" in
  let cs := [Column ["a"]; ExcludeColumn ["zz"]; CallWhereDeleted; Unique] in
  exists q',
    chain cs (with_base q0 (setErr (baseOf q0) e)) = Ok q'
    /\ err (fold_left setErr [errorsNew "second"] (setErr (baseOf q0) e)) = Some e
    /\ err (baseOf q') = Some e
    /\ CreateIndexQuery_AppendQuery q' literalFormatter "" = Err e.
Proof.
  intros q0 e cs. eexists. split; [reflexivity|].
  apply (sticky_error_first_wins q0 _ e [errorsNew "second"] cs
           literalFormatter ""); reflexivity.
Defined.

Lemma soft_delete_flags_exclusive_witness :
  let q := boundTo (structTableModel userTable user) 0%Z in
  let q0 := boundTo (structTableModel accountTable account) deletedFlag in
  (Flag.Has (flags (whereAllWithDeleted (whereDeleted q))) allWithDeletedFlag = true
   /\ Flag.Has (flags (whereAllWithDeleted (whereDeleted q))) deletedFlag = false)
  /\ exclusive
       (flags (baseOf (with_base NewCreateIndexQuery
                         (whereDeleted (whereAllWithDeleted q))))) = true
  /\ (err (whereDeleted q0)
      = Some (fmtErrorf "%s does not have a soft delete field" [argTable accountTable])
      /\ flags (whereDeleted q0) = deletedFlag).
Proof.
  intros q q0.
  destruct soft_delete_flags_exclusive as (Hseq & Hinv & Hlack).
  split; [|split].
  - apply (Hseq q userTable deletedAtField (structTableModel userTable user));
      reflexivity.
  - apply (Hinv [CallWhereAllWithDeleted; CallWhereDeleted]
             (with_base NewCreateIndexQuery q)); reflexivity.
  - destruct (Hlack q0 accountTable eq_refl eq_refl) as [[He Hf] _].
    split; [rewrite He; reflexivity | exact Hf].
Defined.

(** ** Column lists and named arguments *)

Lemma appendColumns_from_text (tbl : string) (fields : list Field) :
  forall (i : nat) (b : string),
    appendColumns_from i b tbl fields
    = match fields with
      | [] => b
      | _ :: _ => (if (0 <? i)%nat then b ++ ", " else b) ++ columnList tbl fields
      end.
Proof.
  induction fields as [|f rest IH]; intros i b; [reflexivity|].
  cbn [appendColumns_from]. rewrite IH. clear IH.
  set (b1 := if (0 <? i)%nat then b ++ ", " else b).
  assert (Hcol : (if (0 <? String.length tbl)%nat then (b1 ++ tbl) ++ "." else b1)
                 ++ SQLName f = b1 ++ qualifier tbl ++ SQLName f).
  { unfold qualifier. destruct (0 <? String.length tbl)%nat.
    - now rewrite !append_assoc.
    - reflexivity. }
  rewrite Hcol. unfold columnList.
  destruct rest as [|g rest]; [reflexivity|].
  change (0 <? S i)%nat with true. cbn [map String.concat].
  now rewrite !append_assoc.
Qed.

Lemma appendColumns_text (b tbl : string) (fields : list Field) :
  appendColumns b tbl fields = b ++ columnList tbl fields.
Proof.
  unfold appendColumns. rewrite appendColumns_from_text.
  destruct fields; [now rewrite append_nil_r | reflexivity].
Qed.

(** C9: [AppendArg] declines, handing the buffer back as it was, when
    no table is bound and for every name outside the six; with a table
    bound each of the six resolves and appends its rendering. *)
Theorem AppendArg_resolution (q : baseQuery) (fmter : QueryFormatter)
    (b name : string) :
  (table q = None -> AppendArg q fmter b name = (b, false))
  /\ (~ In name argNames -> AppendArg q fmter b name = (b, false))
  /\ (forall t : Table, table q = Some t ->
        AppendArg q fmter b "TableName" = (b ++ fmtQuery fmter (TableSQLName t), true)
        /\ AppendArg q fmter b "TableAlias" = (b ++ fmtQuery fmter (Alias t), true)
        /\ AppendArg q fmter b "PKs" = (b ++ columnList "" (PKs t), true)
        /\ AppendArg q fmter b "TablePKs" = (b ++ columnList (Alias t) (PKs t), true)
        /\ AppendArg q fmter b "Columns" = (b ++ columnList "" (Fields t), true)
        /\ AppendArg q fmter b "TableColumns"
           = (b ++ columnList (Alias t) (Fields t), true)).
Proof.
  split; [|split].
  - intros Ht. unfold AppendArg. now rewrite Ht.
  - intros Hout. unfold AppendArg. destruct (table q) as [t|]; [|reflexivity].
    unfold argNames in Hout. simpl in Hout.
    repeat match goal with
           | |- context [(name =? ?s)%string] =>
               destruct (String.eqb_spec name s) as [->|_];
               [exfalso; apply Hout; tauto|]
           end.
    reflexivity.
  - intros t Ht. unfold AppendArg. rewrite Ht. cbn.
    rewrite <- !appendColumns_text. unfold FormatQuery. repeat split.
Qed.

Lemma AppendArg_resolution_witness :
  let q := boundTo (structTableModel accountTable account) 0%Z in
  AppendArg (with_flags q 0%Z) literalFormatter "SELECT " "TablePKs"
  = ("SELECT t.id, t.tenant", true)
  /\ AppendArg q literalFormatter "x" "Nope" = ("x", false)
  /\ AppendArg (mkBaseQuery None None None None zeroQuery [] None 0%Z)
       literalFormatter "x" "PKs" = ("x", false).
Proof.
  intros q. split; [|split].
  - destruct (AppendArg_resolution q literalFormatter "SELECT " "TablePKs")
      as (_ & _ & H).
    destruct (H accountTable eq_refl) as (_ & _ & _ & Hpk & _). exact Hpk.
  - destruct (AppendArg_resolution q literalFormatter "x" "Nope") as (_ & H & _).
    apply H. unfold argNames. simpl.
    intros [H0|[H0|[H0|[H0|[H0|[H0|[]]]]]]]; discriminate H0.
  - destruct (AppendArg_resolution
                (mkBaseQuery None None None None zeroQuery [] None 0%Z)
                literalFormatter "x" "PKs") as (H & _).
    apply H. reflexivity.
Defined.

(** ** RETURNING *)

(** C3, as the code has it: a single returning fragment whose text is
    exactly [null] or [NULL] switches RETURNING off, whatever fields
    [addReturningField] registered before; [appendReturning] then hands
    the buffer back unchanged. *)
Theorem returning_null_opts_out (q : returningQuery) (r : QueryWithArgs)
    (fmter : QueryFormatter) (b : string) :
  returning q = [r] ->
  Query r = "null" \/ Query r = "NULL" ->
  hasReturning q = false /\ appendReturning q fmter b = Ok b.
Proof.
  intros Hr Hq.
  assert (H : hasReturning q = false).
  { unfold hasReturning. rewrite Hr. destruct Hq as [-> | ->]; reflexivity. }
  split; [exact H|]. unfold appendReturning. now rewrite H.
Qed.

Lemma returning_null_opts_out_witness :
  let q := addReturning
             (addReturningField (mkReturningQuery [] []) idField)
             (UnsafeIdent "NULL") in
  returningFields q = [idField]
  /\ hasReturning q = false
  /\ appendReturning q literalFormatter "INSERT" = Ok "INSERT".
Proof.
  intros q. split; [reflexivity|].
  apply (returning_null_opts_out q (UnsafeIdent "NULL") literalFormatter "INSERT").
  - reflexivity.
  - right. reflexivity.
Defined.

(** The comparison is exact: [Null] equals [null] when case is ignored,
    and RETURNING stays on. *)
Lemma returning_null_case_counterexample :
  ~ (forall (q : returningQuery) (r : QueryWithArgs) (fmter : QueryFormatter)
            (b : string),
        returning q = [r] -> EqualFold (Query r) "null" = true ->
        hasReturning q = false /\ appendReturning q fmter b = Ok b).
Proof.
  intros H.
  destruct (H (mkReturningQuery [UnsafeIdent "Null"] []) (UnsafeIdent "Null")
              literalFormatter "" eq_refl eq_refl) as [Hhas _].
  discriminate Hhas.
Qed.

(** ** excludeColumn *)

Lemma firstn_length_app {A : Type} (pre rest : list A) :
  firstn (List.length pre) (pre ++ rest)%list = pre.
Proof.
  induction pre as [|x pre IH]; simpl; [now destruct rest | now rewrite IH].
Qed.

Lemma skipn_S_length_app {A : Type} (pre : list A) (c : A) (rest : list A) :
  skipn (S (List.length pre)) (pre ++ c :: rest)%list = rest.
Proof.
  induction pre as [|x pre IH]; simpl; [reflexivity | exact IH].
Qed.

Lemma _excludeColumn_from_found (name : string) (c : QueryWithArgs)
    (l2 : list QueryWithArgs) :
  matches name c = true ->
  forall l1 pre : list QueryWithArgs,
    (forall x, In x l1 -> matches name x = false) ->
    _excludeColumn_from (List.length pre) (l1 ++ c :: l2)%list
      (pre ++ l1 ++ c :: l2)%list name
    = Some (pre ++ l1 ++ l2)%list.
Proof.
  intros Hc. induction l1 as [|x l1 IH]; intros pre Hl1.
  - cbn [_excludeColumn_from app]. unfold matches in Hc. rewrite Hc.
    now rewrite firstn_length_app, skipn_S_length_app.
  - cbn [_excludeColumn_from app].
    assert (Hx : matches name x = false) by (apply Hl1; now left).
    unfold matches in Hx. rewrite Hx.
    specialize (IH (pre ++ [x])%list).
    rewrite length_app, Nat.add_1_r, <- !app_assoc in IH. simpl in IH.
    apply IH. intros y Hy. apply Hl1. now right.
Qed.

Lemma _excludeColumn_from_none (name : string) (all : list QueryWithArgs) :
  forall (rest : list QueryWithArgs) (i : nat),
    (forall x, In x rest -> matches name x = false) ->
    _excludeColumn_from i rest all name = None.
Proof.
  induction rest as [|x rest IH]; intros i Hrest; [reflexivity|].
  cbn [_excludeColumn_from].
  assert (Hx : matches name x = false) by (apply Hrest; now left).
  unfold matches in Hx. rewrite Hx. apply IH. intros y Hy. apply Hrest. now right.
Qed.

Lemma materialize_columns (fs : list Field) (q : baseQuery) :
  fold_left
    (fun q f => with_columns q (slice_append (columns q) (UnsafeIdent (Name f))))
    fs q
  = with_columns q
      match fs with
      | [] => columns q
      | _ :: _ =>
          Some (slice_elems (columns q) ++ map (fun f => UnsafeIdent (Name f)) fs)%list
      end.
Proof.
  revert q. induction fs as [|f fs IH]; intros q.
  - now destruct q.
  - cbn [fold_left]. rewrite IH. unfold with_columns. cbn.
    destruct fs as [|g fs]; destruct (columns q) as [cs|]; cbn;
      try reflexivity; now rewrite <- app_assoc.
Qed.

Lemma excludeColumn_materializes (q : baseQuery) (t : Table) (cols : list string) :
  table q = Some t ->
  excludeColumn q cols
  = Ok (excludeColumn_loop (with_columns q (effectiveColumns q t)) cols).
Proof.
  intros Ht. unfold excludeColumn, effectiveColumns.
  destruct (columns q) as [cs|] eqn:Hc.
  - simpl. replace (with_columns q (Some cs)) with q; [reflexivity|].
    destruct q; simpl in *; now subst.
  - rewrite Ht. simpl. rewrite materialize_columns, Hc.
    now destruct (Fields t).
Qed.

(** C7: on a builder with a bound table, [excludeColumn] of a name that
    occurs as a raw identifier in the column list (the explicit one, or
    the table's fields when none was set) removes the first such entry
    and keeps the others in order, the error staying as it was; of a
    name that matches no entry it leaves the column list as it is and
    records the error built from [bun: can't find column=%q] and the
    name: afterwards that error is the recorded one, unless an earlier
    error was recorded already, which stays. *)
Theorem excludeColumn_removes_first_match (q : baseQuery) (t : Table)
    (name : string) :
  table q = Some t ->
  (forall (l1 l2 : list QueryWithArgs) (c : QueryWithArgs),
      effectiveColumns q t = Some (l1 ++ c :: l2)%list ->
      matches name c = true ->
      (forall x, In x l1 -> matches name x = false) ->
      excludeColumn q [name] = Ok (with_columns q (Some (l1 ++ l2)%list))
      /\ err (with_columns q (Some (l1 ++ l2)%list)) = err q)
  /\ ((forall x, In x (slice_elems (effectiveColumns q t)) -> matches name x = false) ->
      exists q',
        excludeColumn q [name] = Ok q'
        /\ q' = setErr (with_columns q (effectiveColumns q t))
                  (fmtErrorf "bun: can't find column=%q" [argString name])
        /\ columns q' = effectiveColumns q t
        /\ err q' = Some match err q with
                          | Some e0 => e0
                          | None => fmtErrorf "bun: can't find column=%q"
                                      [argString name]
                          end
        /\ (err q = None ->
            err q' = Some (fmtErrorf "bun: can't find column=%q" [argString name]))).
Proof.
  intros Ht. split.
  - intros l1 l2 c Heff Hc Hl1. split; [|reflexivity].
    rewrite (excludeColumn_materializes q t [name] Ht), Heff.
    cbn [excludeColumn_loop]. unfold _excludeColumn. cbn [columns with_columns].
    pose proof (_excludeColumn_from_found name c l2 Hc l1 [] Hl1) as Hfound.
    cbn [List.length app] in Hfound. rewrite Hfound. reflexivity.
  - intros Hnone.
    exists (setErr (with_columns q (effectiveColumns q t))
              (fmtErrorf "bun: can't find column=%q" [argString name])).
    split.
    { rewrite (excludeColumn_materializes q t [name] Ht).
      cbn [excludeColumn_loop]. unfold _excludeColumn.
      destruct (effectiveColumns q t) as [cs|] eqn:Heff; cbn [columns with_columns].
      + now rewrite (_excludeColumn_from_none name cs cs 0 Hnone).
      + reflexivity. }
    split; [reflexivity|].
    assert (Herr : err (setErr (with_columns q (effectiveColumns q t))
                          (fmtErrorf "bun: can't find column=%q" [argString name]))
                   = Some match err q with
                          | Some e0 => e0
                          | None => fmtErrorf "bun: can't find column=%q"
                                      [argString name]
                          end)
      by (rewrite err_setErr; reflexivity).
    split; [|split].
    + unfold setErr. cbn [err with_columns]. now destruct (err q).
    + exact Herr.
    + intros Hn. rewrite Herr, Hn. reflexivity.
Qed.

Lemma excludeColumn_removes_first_match_witness :
  let q := boundTo (structTableModel accountTable account) 0%Z in
  excludeColumn q ["tenant"]
  = Ok (with_columns q (Some [UnsafeIdent "id"; UnsafeIdent "name"]))
  /\ exists q',
       excludeColumn (addColumn q (UnsafeIdent "id")) ["tenant"] = Ok q'
       /\ columns q' = Some [UnsafeIdent "id"]
       /\ err q' = Some (fmtErrorf "bun: can't find column=%q" [argString "tenant"]).
Proof.
  intros q. split.
  - destruct (excludeColumn_removes_first_match q accountTable "tenant" eq_refl)
      as [H _].
    apply (H [UnsafeIdent "id"] [UnsafeIdent "name"] (UnsafeIdent "tenant"));
      [reflexivity | reflexivity |].
    intros x [<-|[]]. reflexivity.
  - destruct (excludeColumn_removes_first_match (addColumn q (UnsafeIdent "id"))
                accountTable "tenant" eq_refl) as [_ H].
    destruct H as (q' & Hex & _ & Hcols & _ & Herr).
    { intros x [<-|[]]. reflexivity. }
    exists q'. split; [exact Hex|]. split; [exact Hcols|].
    apply Herr. reflexivity.
Defined.

(** ** WHERE lists and groups *)

Lemma bind_assoc {A B C : Type} (r : result A) (f : A -> result B)
    (g : B -> result C) :
  bind (bind r f) g = bind r (fun a => bind (f a) g).
Proof. now destruct r. Qed.

(** Past the first entry the index no longer matters. *)
Lemma _appendWhere_from_S (fmter : QueryFormatter) (ws : list QueryWithSep) :
  forall (i : nat) (b : string),
    _appendWhere_from (S i) fmter b ws = _appendWhere_from 1 fmter b ws.
Proof.
  induction ws as [|w ws IH]; intros i b; [reflexivity|].
  cbn [_appendWhere_from]. change (0 <? S i)%nat with true.
  change (0 <? 1)%nat with true. cbv iota.
  destruct ((Query (qwa w) =? "") && isNil (Args (qwa w))).
  - rewrite (IH (S i)), (IH 1%nat). reflexivity.
  - destruct (AppendQuery (qwa w) fmter ((b ++ Sep w) ++ "(")); simpl;
      try reflexivity.
    rewrite (IH (S i)), (IH 1%nat). reflexivity.
Qed.

(** Rendering a concatenation is rendering its parts in turn. *)
Lemma _appendWhere_from_app (fmter : QueryFormatter) (l2 : list QueryWithSep) :
  forall (l1 : list QueryWithSep) (i : nat) (b : string),
    _appendWhere_from i fmter b (l1 ++ l2)%list
    = (b1 <- _appendWhere_from i fmter b l1 ;;
       _appendWhere_from (i + List.length l1) fmter b1 l2).
Proof.
  induction l1 as [|w l1 IH]; intros i b.
  - simpl. now rewrite Nat.add_0_r.
  - cbn [_appendWhere_from app List.length].
    rewrite Nat.add_succ_r, <- Nat.add_succ_l.
    destruct ((Query (qwa w) =? "") && isNil (Args (qwa w))).
    + apply IH.
    + rewrite bind_assoc.
      destruct (AppendQuery (qwa w) fmter
                  ((if (0 <? i)%nat then b ++ Sep w else b) ++ "("));
        simpl; try reflexivity.
      apply IH.
Qed.

(** What is rendered does not depend on what the buffer held before. *)
Lemma _appendWhere_from_prefix (fmter : QueryFormatter) (ws : list QueryWithSep) :
  forall (i : nat) (a b : string),
    _appendWhere_from i fmter (a ++ b) ws
    = (r <- _appendWhere_from i fmter b ws ;; Ok (a ++ r)).
Proof.
  induction ws as [|w ws IH]; intros i a b; [reflexivity|].
  cbn [_appendWhere_from].
  assert (Hsep : (if (0 <? i)%nat then (a ++ b) ++ Sep w else a ++ b)
                 = a ++ (if (0 <? i)%nat then b ++ Sep w else b)).
  { destruct (0 <? i)%nat; [apply append_assoc | reflexivity]. }
  rewrite Hsep. set (b1 := if (0 <? i)%nat then b ++ Sep w else b).
  destruct ((Query (qwa w) =? "") && isNil (Args (qwa w))).
  - apply IH.
  - unfold AppendQuery. destruct (fmtFragment fmter (qwa w)) as [s|msg]; simpl.
    + rewrite !append_assoc. rewrite <- (append_assoc b1), <- (append_assoc (b1 ++ "(")).
      apply IH.
    + reflexivity.
Qed.

(** A list whose first separator was cleared renders, at a later
    position, as the list itself does from the start. *)
Lemma _appendWhere_from_cleared (fmter : QueryFormatter) (w0 : QueryWithSep)
    (rest : list QueryWithSep) (i : nat) (pfx : string) :
  _appendWhere_from (S i) fmter pfx (mkQuerySep (qwa w0) "" :: rest)
  = (t <- _appendWhere fmter "" (w0 :: rest) ;; Ok (pfx ++ t)).
Proof.
  rewrite <- (append_nil_r pfx) at 1. rewrite _appendWhere_from_prefix.
  f_equal. unfold _appendWhere. cbn [_appendWhere_from qwa Sep].
  change (0 <? S i)%nat with true. change (0 <? 0)%nat with false. cbv iota.
  change ("" ++ "") with "".
  destruct ((Query (qwa w0) =? "") && isNil (Args (qwa w0))).
  - rewrite (_appendWhere_from_S fmter rest (S i)). reflexivity.
  - destruct (AppendQuery (qwa w0) fmter ("" ++ "(")); simpl; try reflexivity.
    rewrite (_appendWhere_from_S fmter rest (S i)). reflexivity.
Qed.

(** A punctuation-only fragment past the first position prints its
    separator and nothing else. *)
Lemma _appendWhere_from_punct (fmter : QueryFormatter) (i : nat) (b s : string) :
  _appendWhere_from (S i) fmter b [SafeQueryWithSep "" None s] = Ok (b ++ s).
Proof. reflexivity. Qed.

(** Past the first position: a group whose [fn] adds nothing leaves the
    list as it was; a group with at least one entry, added to a list
    that already holds one, renders as what was there before, then
    [sep], an opening parenthesis, the inner list rendered as a list of
    its own (with what the first position does to it) and a closing
    parenthesis. *)
Lemma addWhereGroup_renders (q : WhereQuery) (sep : string)
    (fn : WhereQuery -> WhereQuery) (fmter : QueryFormatter) (b : string) :
  (where_ (fn (mkWhereQuery [])) = [] -> addWhereGroup q sep fn = q)
  /\ (where_ (fn (mkWhereQuery [])) <> [] -> where_ q <> [] ->
      _appendWhere fmter b (where_ (addWhereGroup q sep fn))
      = (b1 <- _appendWhere fmter b (where_ q) ;;
         inner <- _appendWhere fmter "" (where_ (fn (mkWhereQuery []))) ;;
         Ok (b1 ++ sep ++ "(" ++ inner ++ ")"))).
Proof.
  unfold addWhereGroup. split.
  - intros Hempty. now rewrite Hempty.
  - intros Hinner Houter.
    destruct (where_ (fn (mkWhereQuery []))) as [|w0 rest]; [contradiction|].
    destruct (where_ q) as [|o os] eqn:Hq; [contradiction|].
    set (innerR := _appendWhere fmter "" (w0 :: rest)).
    unfold addWhere, _appendWhere. cbn [where_]. rewrite Hq.
    rewrite !_appendWhere_from_app.
    destruct (_appendWhere_from 0 fmter b (o :: os)) as [b1| |]; cbn [bind];
      try reflexivity.
    cbn [List.length Nat.add app].
    rewrite _appendWhere_from_punct. cbn [bind].
    rewrite (_appendWhere_from_cleared fmter w0 rest). subst innerR.
    rewrite bind_assoc.
    destruct (_appendWhere fmter "" (w0 :: rest)) as [t| |]; cbn [bind];
      try reflexivity.
    rewrite _appendWhere_from_punct.
    now rewrite !append_assoc.
Qed.

(** At the first position no separator is printed, and the opening
    parenthesis of a group travels in its separator: the group renders
    as its inner list followed by a closing parenthesis alone. *)
Lemma addWhereGroup_first_position (sep : string) (fn : WhereQuery -> WhereQuery)
    (fmter : QueryFormatter) (b : string) :
  where_ (fn (mkWhereQuery [])) <> [] ->
  _appendWhere fmter b (where_ (addWhereGroup (mkWhereQuery []) sep fn))
  = (inner <- _appendWhere fmter "" (where_ (fn (mkWhereQuery []))) ;;
     Ok (b ++ inner ++ ")")).
Proof.
  intros Hne. unfold addWhereGroup.
  destruct (where_ (fn (mkWhereQuery []))) as [|w0 rest]; [contradiction|].
  set (innerR := _appendWhere fmter "" (w0 :: rest)).
  unfold addWhere, _appendWhere. cbn [where_].
  rewrite !_appendWhere_from_app.
  change (_appendWhere_from 0 fmter b []) with (Ok b). cbn [bind].
  cbn [List.length Nat.add app].
  change (_appendWhere_from 0 fmter b [SafeQueryWithSep "" None (sep ++ "(")])
    with (Ok b).
  cbn [bind].
  rewrite (_appendWhere_from_cleared fmter w0 rest). subst innerR.
  rewrite bind_assoc.
  destruct (_appendWhere fmter "" (w0 :: rest)) as [t| |]; cbn [bind];
    try reflexivity.
  rewrite _appendWhere_from_punct.
  now rewrite !append_assoc.
Qed.

(** C2: what the code renders for a group.  After a first predicate the
    group is [sep], [(], the inner predicates and [)].  As the first
    entry of the list it comes out as the inner predicates and a closing
    parenthesis without the opening one; the same happens to a group
    that is the first entry inside another group. *)
Theorem addWhereGroup_first_group_unbalanced :
  let fn := fun q2 => WhereOr (Where q2 "b = 2" None) "c = 3" None in
  let nested := fun q2 =>
                  Where (addWhereGroup q2 " OR " (fun q3 => Where q3 "b = 2" None))
                    "c = 3" None in
  addWhereGroup (mkWhereQuery []) " OR " (fun q2 => q2) = mkWhereQuery []
  /\ _appendWhere literalFormatter ""
       (where_ (addWhereGroup (Where (mkWhereQuery []) "a = 1" None) " OR " fn))
     = Ok "(a = 1) OR ((b = 2) OR (c = 3))"
  /\ _appendWhere literalFormatter ""
       (where_ (addWhereGroup (mkWhereQuery []) " OR " fn))
     = Ok "(b = 2) OR (c = 3))"
  /\ _appendWhere literalFormatter ""
       (where_ (addWhereGroup (Where (mkWhereQuery []) "a = 1" None) " AND " nested))
     = Ok "(a = 1) AND ((b = 2)) AND (c = 3))".
Proof.
  intros fn nested. split; [reflexivity|]. split.
  - destruct (addWhereGroup_renders (Where (mkWhereQuery []) "a = 1" None)
                " OR " fn literalFormatter "") as [_ H].
    rewrite H; [reflexivity | discriminate | discriminate].
  - split.
    + rewrite (addWhereGroup_first_position " OR " fn literalFormatter "");
        [reflexivity | discriminate].
    + reflexivity.
Qed.

(** ** The primary-key predicate *)

(** C4: a struct model, key columns [id] and [tenant] holding 5 and
    [acme], alias [t]: the predicate is
    [(t.id = 5 AND t.tenant = 'acme')] under a formatter that writes
    these literals and [(t.id = ? AND t.tenant = ?)] under the template
    formatter. *)
Theorem wherePK_struct_two_columns (q : whereBaseQuery) (t : Table)
    (idF tenantF : Field) (strct : Value) (fmter : QueryFormatter) (b : string) :
  table (base q) = Some t ->
  tableModel_ (base q) = Some (structTableModel t strct) ->
  PKs t = [idF; tenantF] ->
  SQLName idF = "id" -> SQLName tenantF = "tenant" -> Alias t = "t" ->
  fieldValue idF strct = VInt 5 -> fieldValue tenantF strct = VString "acme" ->
  fmtValue fmter (VInt 5) = "5" -> fmtValue fmter (VString "acme") = "'acme'" ->
  appendWherePK q fmter b
  = Ok (b ++ if IsNopFormatter fmter
             then "(t.id = ? AND t.tenant = ?)"
             else "(t.id = 5 AND t.tenant = 'acme')").
Proof.
  intros Ht Htm Hpk Hid Hten Hal Hv1 Hv2 Hf1 Hf2.
  unfold appendWherePK, CheckPKs. rewrite Ht, Hpk, Htm.
  unfold appendWherePKStruct. rewrite Ht, Hpk.
  cbn [appendWherePKStruct_from]. unfold AppendValue.
  rewrite Hid, Hten, Hal, Hv1, Hv2, Hf1, Hf2.
  destruct (IsNopFormatter fmter); cbn; now rewrite !append_assoc.
Qed.

Lemma wherePK_struct_two_columns_witness :
  let q := mkWhereBaseQuery
             (boundTo (structTableModel accountTable account) wherePKFlag)
             (mkWhereQuery []) in
  appendWherePK q literalFormatter "" = Ok "(t.id = 5 AND t.tenant = 'acme')"
  /\ appendWherePK q nopFormatter "" = Ok "(t.id = ? AND t.tenant = ?)".
Proof.
  intros q. split.
  - apply (wherePK_struct_two_columns q accountTable idField tenantField account
             literalFormatter ""); reflexivity.
  - apply (wherePK_struct_two_columns q accountTable idField tenantField account
             nopFormatter ""); reflexivity.
Defined.

(** In template mode the loop over the slice stops after one element. *)
Lemma appendWherePKSlice_from_template (pks : list Field) (fmter : QueryFormatter)
    (rest : list Value) (i : nat) (b : string) :
  appendWherePKSlice_from (S i) rest pks fmter true b = b.
Proof. destruct rest; reflexivity. Qed.

(** C5, as the code has it: a slice model of three elements whose key
    column [id] holds 1, 2 and 3: the predicate is [id IN (1, 2, 3)]
    under a formatter that writes these literals and [id IN (?)], one
    element only, under the template formatter; in both the column is
    written behind the table alias and a dot when the alias is not
    empty. *)
Theorem wherePK_slice_single_column (q : whereBaseQuery) (t : Table)
    (idF : Field) (e1 e2 e3 : Value) (fmter : QueryFormatter) (b : string) :
  table (base q) = Some t ->
  tableModel_ (base q) = Some (sliceTableModel t [e1; e2; e3]) ->
  PKs t = [idF] -> SQLName idF = "id" ->
  fieldValue idF (indirect e1) = VInt 1 ->
  fieldValue idF (indirect e2) = VInt 2 ->
  fieldValue idF (indirect e3) = VInt 3 ->
  fmtValue fmter (VInt 1) = "1" -> fmtValue fmter (VInt 2) = "2" ->
  fmtValue fmter (VInt 3) = "3" ->
  appendWherePK q fmter b
  = Ok (b ++ qualifier (Alias t)
          ++ if IsNopFormatter fmter then "id IN (?)" else "id IN (1, 2, 3)").
Proof.
  intros Ht Htm Hpk Hid Hv1 Hv2 Hv3 Hf1 Hf2 Hf3.
  unfold appendWherePK, CheckPKs. rewrite Ht, Hpk, Htm.
  unfold appendWherePKSlice. rewrite Ht, Hpk.
  rewrite appendColumns_text. unfold columnList. cbn [map String.concat List.length].
  change (1 <? 1)%nat with false. cbv iota. rewrite Hid.
  destruct (IsNopFormatter fmter).
  - cbn [appendWherePKSlice_from appendPKValues_from List.length].
    change (1 <? 1)%nat with false. change (0 <? 0)%nat with false. cbn [andb].
    change (0 <? 1)%nat with true. cbn [andb]. cbv iota.
    rewrite !append_assoc. reflexivity.
  - cbn [appendWherePKSlice_from appendPKValues_from List.length].
    change (1 <? 1)%nat with false. change (0 <? 0)%nat with false.
    change (0 <? 1)%nat with true. change (0 <? 2)%nat with true.
    cbn [andb]. cbv iota. unfold AppendValue.
    rewrite Hv1, Hv2, Hv3, Hf1, Hf2, Hf3.
    rewrite !append_assoc. reflexivity.
Qed.

Lemma wherePK_slice_single_column_witness :
  let q := fun a => mkWhereBaseQuery
                      (boundTo (sliceTableModel (itemTable a) items) wherePKFlag)
                      (mkWhereQuery []) in
  appendWherePK (q "") literalFormatter "" = Ok "id IN (1, 2, 3)"
  /\ appendWherePK (q "") nopFormatter "" = Ok "id IN (?)"
  /\ appendWherePK (q "item") literalFormatter "" = Ok "item.id IN (1, 2, 3)".
Proof.
  intros q. split; [|split].
  - apply (wherePK_slice_single_column (q "") (itemTable "") idField
             (VStruct [("ID", VInt 1)]) (VStruct [("ID", VInt 2)])
             (VStruct [("ID", VInt 3)]) literalFormatter ""); reflexivity.
  - apply (wherePK_slice_single_column (q "") (itemTable "") idField
             (VStruct [("ID", VInt 1)]) (VStruct [("ID", VInt 2)])
             (VStruct [("ID", VInt 3)]) nopFormatter ""); reflexivity.
  - apply (wherePK_slice_single_column (q "item") (itemTable "item") idField
             (VStruct [("ID", VInt 1)]) (VStruct [("ID", VInt 2)])
             (VStruct [("ID", VInt 3)]) literalFormatter ""); reflexivity.
Defined.

(** The column of the IN predicate carries the table alias. *)
Lemma wherePK_slice_alias_counterexample :
  ~ (forall (q : whereBaseQuery) (t : Table) (idF : Field) (e1 e2 e3 : Value),
        table (base q) = Some t ->
        tableModel_ (base q) = Some (sliceTableModel t [e1; e2; e3]) ->
        PKs t = [idF] -> SQLName idF = "id" ->
        fieldValue idF (indirect e1) = VInt 1 ->
        fieldValue idF (indirect e2) = VInt 2 ->
        fieldValue idF (indirect e3) = VInt 3 ->
        appendWherePK q literalFormatter "" = Ok "id IN (1, 2, 3)"
        /\ appendWherePK q nopFormatter "" = Ok "id IN (?)").
Proof.
  intros H.
  destruct (H (mkWhereBaseQuery
                 (boundTo (sliceTableModel (itemTable "item") items) wherePKFlag)
                 (mkWhereQuery []))
              (itemTable "item") idField
              (VStruct [("ID", VInt 1)]) (VStruct [("ID", VInt 2)])
              (VStruct [("ID", VInt 3)])
              eq_refl eq_refl eq_refl eq_refl eq_refl eq_refl eq_refl) as [Hlit _].
  vm_compute in Hlit. discriminate Hlit.
Qed.

(** ** The WHERE clause *)

Lemma _appendWhere_from_Err (fmter : QueryFormatter) (ws : list QueryWithSep) :
  forall (i : nat) (b : string) (e : error),
    _appendWhere_from i fmter b ws = Err e -> exists msg, e = external msg.
Proof.
  induction ws as [|w ws IH]; intros i b e; cbn [_appendWhere_from];
    [discriminate|].
  destruct ((Query (qwa w) =? "") && isNil (Args (qwa w))); [apply IH|].
  unfold AppendQuery. destruct (fmtFragment fmter (qwa w)) as [s|msg]; simpl.
  - apply IH.
  - intros H. injection H as <-. now exists msg.
Qed.

Lemma appendWherePK_Err (q : whereBaseQuery) (fmter : QueryFormatter)
    (b : string) (e : error) :
  appendWherePK q fmter b = Err e -> whereRenderError e.
Proof.
  unfold appendWherePK, CheckPKs, appendWherePKStruct, appendWherePKSlice.
  destruct (table (base q)) as [t|]; [|discriminate].
  destruct (PKs t).
  - intros H. injection H as <-. right. now left.
  - destruct (tableModel_ (base q)) as [[t' s|t' s|k t']|]; try discriminate;
      intros H; injection H as <-; right; right; eexists; reflexivity.
Qed.

Lemma appendWhere_Err (q : whereBaseQuery) (fmter : QueryFormatter)
    (b : string) (e : error) :
  appendWhere q fmter b = Err e -> whereRenderError e.
Proof.
  unfold appendWhere.
  destruct ((List.length (where_ (wq q)) =? 0)%nat
            && negb (isSoftDelete (base q))
            && negb (Flag.Has (flags (base q)) wherePKFlag)); [discriminate|].
  destruct (if (0 <? List.length (where_ (wq q)))%nat
            then _appendWhere fmter (b ++ " WHERE ") (where_ (wq q))
            else Ok (b ++ " WHERE ")) as [b1|e1|] eqn:E1; cbn [bind];
    [| |discriminate].
  - destruct (isSoftDelete (base q)).
    + unfold appendWhereSoftDelete.
      destruct (tableModel_ (base q)) as [tm|]; [|discriminate].
      destruct (SoftDeleteField (tableModel_Table tm)); [|discriminate].
      destruct (Flag.Has (flags (base q)) deletedFlag); cbn [bind];
        (destruct (Flag.Has (flags (base q)) wherePKFlag);
         [apply appendWherePK_Err | discriminate]).
    + cbn [bind]. destruct (Flag.Has (flags (base q)) wherePKFlag);
        [apply appendWherePK_Err | discriminate].
  - intros H. injection H as <-.
    destruct (0 <? List.length (where_ (wq q)))%nat; [|discriminate].
    left. apply (_appendWhere_from_Err _ _ _ _ _ E1).
Qed.

Lemma whereRenderError_not_required : ~ whereRenderError errWhereRequired.
Proof.
  intros [[msg H]|[H|[tm H]]]; discriminate H.
Qed.

Lemma length_eqb_0 {A : Type} (l : list A) :
  (List.length l =? 0)%nat = true <-> l = [].
Proof.
  destruct l; simpl; split; intros H; try reflexivity; discriminate.
Qed.

(** C6, as the code has it: [mustAppendWhere] returns the error that
    asks for a WHERE clause exactly when the where list is empty and the
    restrict-to-PK flag is unset.  With the flag set, the list empty and
    no soft-delete filter in force, it emits [ WHERE ] followed by the
    primary-key predicate alone, and succeeds when that predicate does:
    for a table with a primary key bound to a struct or slice model. *)
Theorem mustAppendWhere_requires_where (q : whereBaseQuery)
    (fmter : QueryFormatter) (b : string) :
  (mustAppendWhere q fmter b = Err errWhereRequired
   <-> where_ (wq q) = [] /\ Flag.Has (flags (base q)) wherePKFlag = false)
  /\ (where_ (wq q) = [] ->
      Flag.Has (flags (base q)) wherePKFlag = true ->
      isSoftDelete (base q) = false ->
      mustAppendWhere q fmter b = appendWherePK q fmter (b ++ " WHERE ")
      /\ forall (t : Table) (tm : tableModel),
           table (base q) = Some t -> PKs t <> [] ->
           tableModel_ (base q) = Some tm ->
           (forall k t', tm <> otherTableModel k t') ->
           exists pk, mustAppendWhere q fmter b = Ok pk).
Proof.
  split.
  - unfold mustAppendWhere. split.
    + destruct (Flag.Has (flags (base q)) wherePKFlag) eqn:Hf.
      * rewrite andb_false_r. intros H. apply appendWhere_Err in H.
        now apply whereRenderError_not_required in H.
      * rewrite andb_true_r.
        destruct (List.length (where_ (wq q)) =? 0)%nat eqn:Hl.
        -- intros _. split; [now apply length_eqb_0 | reflexivity].
        -- intros H. apply appendWhere_Err in H.
           now apply whereRenderError_not_required in H.
    + intros [Hw Hf]. now rewrite Hw, Hf.
  - intros Hw Hf Hsd.
    assert (Hmust : mustAppendWhere q fmter b
                    = appendWherePK q fmter (b ++ " WHERE ")).
    { unfold mustAppendWhere, appendWhere. rewrite Hw, Hf, Hsd.
      cbn [List.length Nat.eqb andb negb bind].
      change (0 <? 0)%nat with false. cbv iota. cbn [bind].
      rewrite Nat.ltb_irrefl. reflexivity. }
    split; [exact Hmust|].
    intros t tm Ht Hpk Htm Hkind. rewrite Hmust.
    unfold appendWherePK, CheckPKs, appendWherePKStruct, appendWherePKSlice.
    rewrite Ht, Htm. destruct (PKs t) as [|f fs]; [contradiction|].
    destruct tm as [t' s|t' s|k t']; try (eexists; reflexivity).
    now destruct (Hkind k t').
Qed.

Lemma mustAppendWhere_requires_where_witness :
  let q := fun f => mkWhereBaseQuery
                      (boundTo (structTableModel accountTable account) f)
                      (mkWhereQuery []) in
  mustAppendWhere (q 0%Z) literalFormatter "DELETE FROM accounts AS t"
  = Err errWhereRequired
  /\ mustAppendWhere (q wherePKFlag) literalFormatter "DELETE FROM accounts AS t"
     = Ok "DELETE FROM accounts AS t WHERE (t.id = 5 AND t.tenant = 'acme')".
Proof.
  intros q. split.
  - apply (mustAppendWhere_requires_where (q 0%Z) literalFormatter
             "DELETE FROM accounts AS t").
    split; reflexivity.
  - destruct (mustAppendWhere_requires_where (q wherePKFlag) literalFormatter
                "DELETE FROM accounts AS t") as [_ H].
    destruct (H eq_refl eq_refl eq_refl) as [Heq _].
    rewrite Heq. reflexivity.
Defined.

(** With a soft-delete column the filter is on unless switched off, so
    the clause holds more than the primary-key predicate. *)
Lemma mustAppendWhere_only_pk_counterexample :
  ~ (forall (q : whereBaseQuery) (fmter : QueryFormatter) (b : string),
        where_ (wq q) = [] -> Flag.Has (flags (base q)) wherePKFlag = true ->
        exists pk, appendWherePK q fmter "" = Ok pk
                   /\ mustAppendWhere q fmter b = Ok (b ++ " WHERE " ++ pk)).
Proof.
  intros H.
  destruct (H (mkWhereBaseQuery
                 (boundTo (structTableModel userTable user) wherePKFlag)
                 (mkWhereQuery []))
              literalFormatter "" eq_refl eq_refl) as (pk & Hpk & Hmust).
  vm_compute in Hpk. injection Hpk as <-.
  vm_compute in Hmust. discriminate Hmust.
Qed.

Example mustAppendWhere_soft_delete_and_pk :
  mustAppendWhere
    (mkWhereBaseQuery (boundTo (structTableModel userTable user) wherePKFlag)
       (mkWhereQuery []))
    literalFormatter ""
  = Ok " WHERE u.deleted_at IS NULL AND (u.id = 5)".
Proof. reflexivity. Qed.

Lemma ltb_add_r (n m : nat) : (n <? n + m)%nat = (0 <? m)%nat.
Proof.
  destruct (Nat.ltb_spec n (n + m)), (Nat.ltb_spec 0 m); try reflexivity; lia.
Qed.

(** The list part of [appendWhere], on a buffer ending in [ WHERE ]. *)
Lemma appendWhere_list_part (fmter : QueryFormatter) (ws : list QueryWithSep)
    (a r : string) :
  _appendWhere fmter "" ws = Ok r ->
  (if (0 <? List.length ws)%nat then _appendWhere fmter a ws else Ok a)
  = Ok (a ++ r).
Proof.
  intros Hr. destruct ws as [|w ws].
  - cbn in Hr. injection Hr as <-. cbn. now rewrite append_nil_r.
  - change (0 <? List.length (w :: ws))%nat with true. cbv iota.
    unfold _appendWhere in *. rewrite <- (append_nil_r a) at 1.
    rewrite _appendWhere_from_prefix, Hr. reflexivity.
Qed.

(** C10: when the bound table has a soft-delete field, [appendWhere]
    emits [alias.field IS NULL] ([IS NOT NULL] under the only-deleted
    flag) after the where list, behind [ AND ] when that list printed
    something, whether or not either soft-delete switch was ever
    called; only the include-all flag turns the filter off: with it set
    the clause holds the where list and the primary-key predicate and
    nothing else, whatever the where list and the other flags are. *)
Theorem soft_delete_on_by_default (q : whereBaseQuery) (tm : tableModel)
    (sf : Field) (fmter : QueryFormatter) (b : string) :
  tableModel_ (base q) = Some tm ->
  table (base q) = Some (tableModel_Table tm) ->
  SoftDeleteField (tableModel_Table tm) = Some sf ->
  isSoftDelete (base q) = negb (Flag.Has (flags (base q)) allWithDeletedFlag)
  /\ (Flag.Has (flags (base q)) allWithDeletedFlag = false ->
      forall r : string,
        _appendWhere fmter "" (where_ (wq q)) = Ok r ->
        appendWhere q fmter b
        = if Flag.Has (flags (base q)) wherePKFlag
          then appendWherePK q fmter
                 (b ++ " WHERE " ++ r
                    ++ (if (0 <? String.length r)%nat then " AND " else "")
                    ++ softDeletePredicate (tableModel_Table tm) sf (flags (base q))
                    ++ " AND ")
          else Ok (b ++ " WHERE " ++ r
                     ++ (if (0 <? String.length r)%nat then " AND " else "")
                     ++ softDeletePredicate (tableModel_Table tm) sf (flags (base q))))
  /\ (Flag.Has (flags (base q)) allWithDeletedFlag = true ->
      where_ (wq q) = [] -> Flag.Has (flags (base q)) wherePKFlag = false ->
      appendWhere q fmter b = Ok b)
  /\ (Flag.Has (flags (base q)) allWithDeletedFlag = true ->
      forall r : string,
        _appendWhere fmter "" (where_ (wq q)) = Ok r ->
        appendWhere q fmter b
        = if (List.length (where_ (wq q)) =? 0)%nat
             && negb (Flag.Has (flags (base q)) wherePKFlag)
          then Ok b
          else if Flag.Has (flags (base q)) wherePKFlag
               then appendWherePK q fmter
                      (b ++ " WHERE " ++ r
                         ++ if (0 <? String.length r)%nat then " AND " else "")
               else Ok (b ++ " WHERE " ++ r)).
Proof.
  intros Htm Ht Hsf.
  assert (His : isSoftDelete (base q)
                = negb (Flag.Has (flags (base q)) allWithDeletedFlag))
    by (unfold isSoftDelete; now rewrite Ht, Hsf).
  split; [exact His|]. split; [|split].
  - intros Hall r Hr. rewrite Hall in His. cbn in His.
    unfold appendWhere. rewrite His. cbn [negb]. rewrite andb_false_r. cbn [andb].
    cbv iota.
    rewrite (appendWhere_list_part fmter (where_ (wq q)) (b ++ " WHERE ") r Hr).
    cbn [bind]. rewrite Htm. unfold appendWhereSoftDelete. rewrite Htm, Hsf.
    rewrite (length_append (b ++ " WHERE ") r), ltb_add_r.
    unfold softDeletePredicate.
    set (sepAnd := if (0 <? String.length r)%nat then " AND " else "").
    assert (Hb : (if (0 <? String.length r)%nat
                  then ((b ++ " WHERE ") ++ r) ++ " AND "
                  else (b ++ " WHERE ") ++ r)
                 = (b ++ " WHERE ") ++ r ++ sepAnd).
    { unfold sepAnd. destruct (0 <? String.length r)%nat.
      - now rewrite !append_assoc.
      - now rewrite append_nil_r. }
    rewrite Hb.
    destruct (Flag.Has (flags (base q)) deletedFlag); cbn [bind];
      (destruct (Flag.Has (flags (base q)) wherePKFlag);
       [ match goal with
         | |- context [(?x <? ?y)%nat] =>
             replace (x <? y)%nat with true
               by (symmetry; apply Nat.ltb_lt; rewrite !length_append; simpl; lia)
         end;
         f_equal; rewrite !append_assoc; reflexivity
       | f_equal; rewrite !append_assoc; reflexivity ]).
  - intros Hall Hw Hpk. rewrite Hall in His. cbn in His.
    unfold appendWhere. now rewrite Hw, His, Hpk.
  - intros Hall r Hr. rewrite Hall in His. cbn in His.
    unfold appendWhere. rewrite His. cbn [negb]. rewrite andb_true_r.
    destruct ((List.length (where_ (wq q)) =? 0)%nat
              && negb (Flag.Has (flags (base q)) wherePKFlag)); [reflexivity|].
    rewrite (appendWhere_list_part fmter (where_ (wq q)) (b ++ " WHERE ") r Hr).
    cbn [bind].
    destruct (Flag.Has (flags (base q)) wherePKFlag).
    + rewrite (length_append (b ++ " WHERE ") r), ltb_add_r.
      destruct (0 <? String.length r)%nat; rewrite ?append_nil_r;
        now rewrite !append_assoc.
    + now rewrite append_assoc.
Qed.

Lemma soft_delete_on_by_default_witness :
  let q := fun f ws => mkWhereBaseQuery
                         (boundTo (structTableModel userTable user) f)
                         (mkWhereQuery ws) in
  appendWhere (q 0%Z []) literalFormatter "SELECT * FROM users AS u"
  = Ok "SELECT * FROM users AS u WHERE u.deleted_at IS NULL"
  /\ appendWhere (q deletedFlag [SafeQueryWithSep "name = 'bob'" None " AND "])
       literalFormatter ""
     = Ok " WHERE (name = 'bob') AND u.deleted_at IS NOT NULL"
  /\ appendWhere (q allWithDeletedFlag []) literalFormatter "x" = Ok "x"
  /\ appendWhere
       (q allWithDeletedFlag [SafeQueryWithSep "name = 'bob'" None " AND "])
       literalFormatter ""
     = Ok " WHERE (name = 'bob')"
  /\ appendWhere
       (q (Flag.Set_ allWithDeletedFlag wherePKFlag)
          [SafeQueryWithSep "name = 'bob'" None " AND "])
       literalFormatter ""
     = Ok " WHERE (name = 'bob') AND (u.id = 5)".
Proof.
  intros q.
  split; [|split; [|split; [|split]]].
  - destruct (soft_delete_on_by_default (q 0%Z []) (structTableModel userTable user)
                deletedAtField literalFormatter "SELECT * FROM users AS u"
                eq_refl eq_refl eq_refl) as (_ & H & _).
    rewrite (H eq_refl "" eq_refl). reflexivity.
  - destruct (soft_delete_on_by_default
                (q deletedFlag [SafeQueryWithSep "name = 'bob'" None " AND "])
                (structTableModel userTable user)
                deletedAtField literalFormatter ""
                eq_refl eq_refl eq_refl) as (_ & H & _).
    rewrite (H eq_refl "(name = 'bob')" eq_refl). reflexivity.
  - destruct (soft_delete_on_by_default (q allWithDeletedFlag [])
                (structTableModel userTable user)
                deletedAtField literalFormatter "x"
                eq_refl eq_refl eq_refl) as (_ & _ & H & _).
    apply H; reflexivity.
  - destruct (soft_delete_on_by_default
                (q allWithDeletedFlag [SafeQueryWithSep "name = 'bob'" None " AND "])
                (structTableModel userTable user)
                deletedAtField literalFormatter ""
                eq_refl eq_refl eq_refl) as (_ & _ & _ & H).
    rewrite (H eq_refl "(name = 'bob')" eq_refl). reflexivity.
  - destruct (soft_delete_on_by_default
                (q (Flag.Set_ allWithDeletedFlag wherePKFlag)
                   [SafeQueryWithSep "name = 'bob'" None " AND "])
                (structTableModel userTable user)
                deletedAtField literalFormatter ""
                eq_refl eq_refl eq_refl) as (_ & _ & _ & H).
    rewrite (H eq_refl "(name = 'bob')" eq_refl). reflexivity.
Defined.

(** * Further properties of the builder *)

(** ** Comma-separated fragment lists *)

Lemma appendFragments_texts (fmter : QueryFormatter) (fs : list QueryWithArgs) :
  forall (i : nat) (b : string),
    appendFragments i fs fmter b
    = (ts <- fragmentTexts fmter fs ;;
       Ok match fs with
          | [] => b
          | _ :: _ => (if (0 <? i)%nat then b ++ ", " else b) ++ String.concat ", " ts
          end).
Proof.
  induction fs as [|f rest IH]; intros i b; [reflexivity|].
  cbn [appendFragments fragmentTexts]. unfold AppendQuery.
  destruct (fmtFragment fmter f) as [s|msg]; [|reflexivity].
  cbn [bind]. rewrite IH. clear IH.
  set (b1 := if (0 <? i)%nat then b ++ ", " else b).
  destruct rest as [|g rest]; [reflexivity|].
  cbn [fragmentTexts]. destruct (fmtFragment fmter g) as [s'|msg']; [|reflexivity].
  destruct (fragmentTexts fmter rest) as [ts| |]; cbn [bind]; try reflexivity.
  change (0 <? S i)%nat with true. cbn [String.concat].
  now rewrite !append_assoc.
Qed.

(** X5: the column list is the texts of the column fragments with a
    comma and a space in between, nothing before the first or after the
    last; when a fragment does not render, the first such error is the
    result. *)
Theorem appendColumns_comma_joined (q : baseQuery) (fmter : QueryFormatter)
    (b : string) :
  baseQuery_appendColumns q fmter b
  = (ts <- fragmentTexts fmter (slice_elems (columns q)) ;;
     Ok (b ++ String.concat ", " ts)).
Proof.
  unfold baseQuery_appendColumns. rewrite appendFragments_texts.
  destruct (slice_elems (columns q)); [|reflexivity].
  cbn. now rewrite append_nil_r.
Qed.

(** X20: [appendSet] writes [ SET ] and the comma-joined assignments;
    with no assignment at all it still writes the keyword. *)
Theorem appendSet_comma_joined (q : setQuery) (fmter : QueryFormatter) (b : string) :
  appendSet q fmter b
  = (ts <- fragmentTexts fmter (set_ q) ;;
     Ok (b ++ " SET " ++ String.concat ", " ts))
  /\ appendSet (mkSetQuery []) fmter b = Ok (b ++ " SET ").
Proof.
  split; [|reflexivity].
  unfold appendSet. rewrite appendFragments_texts.
  destruct (set_ q) as [|f rest].
  - reflexivity.
  - change (0 <? 0)%nat with false. cbv iota.
    destruct (fragmentTexts fmter (f :: rest)); cbn [bind]; try reflexivity.
    now rewrite append_assoc.
Qed.

Lemma appendFragments_not_Panic (fmter : QueryFormatter) (fs : list QueryWithArgs)
    (i : nat) (b : string) :
  appendFragments i fs fmter b <> Panic.
Proof.
  rewrite appendFragments_texts.
  assert (H : fragmentTexts fmter fs <> Panic).
  { induction fs as [|f rest IH]; cbn; [discriminate|].
    destruct (fmtFragment fmter f); [|discriminate].
    destruct (fragmentTexts fmter rest); cbn; try discriminate. now apply IH. }
  destruct (fragmentTexts fmter fs); cbn; try discriminate. now destruct H.
Qed.

(** ** Tables *)

Lemma AppendQuery_Err (f : QueryWithArgs) (fmter : QueryFormatter) (b : string)
    (e : error) :
  AppendQuery f fmter b = Err e -> exists msg, e = external msg.
Proof.
  unfold AppendQuery. destruct (fmtFragment fmter f) as [s|msg]; [discriminate|].
  intros H. injection H as <-. now exists msg.
Qed.

(** X1: [_appendFirstTable] fails with the error that the query has no
    table exactly when [hasTables] is false: no model table expression,
    no bound table and an empty table list. *)
Theorem firstTable_error_iff_no_tables (q : baseQuery) (fmter : QueryFormatter)
    (b : string) (withAlias : bool) :
  _appendFirstTable q fmter b withAlias = Err errNoTable <-> hasTables q = false.
Proof.
  unfold _appendFirstTable, hasTables, modelHasTableName.
  destruct (IsZero (modelTable q)); cbn [negb orb].
  - destruct (table q) as [t|]; cbn [isNil negb orb].
    + split; discriminate.
    + destruct (tables q) as [|first rest]; cbn.
      * split; reflexivity.
      * split; [|discriminate]. intros H.
        apply AppendQuery_Err in H. destruct H as [msg H]. discriminate H.
  - split; [|discriminate]. intros H.
    apply AppendQuery_Err in H. destruct H as [msg H]. discriminate H.
Qed.

(** X2: the model table expression takes precedence over the bound
    table and the table list, and the bound table over the table list:
    what has lower precedence does not change the first table. *)
Theorem firstTable_precedence (q1 q2 : baseQuery) (fmter : QueryFormatter)
    (b : string) (withAlias : bool) :
  modelTable q1 = modelTable q2 ->
  IsZero (modelTable q1) = false
  \/ (table q1 = table q2 /\ table q1 <> None) ->
  _appendFirstTable q1 fmter b withAlias = _appendFirstTable q2 fmter b withAlias.
Proof.
  intros Hmt H. unfold _appendFirstTable. rewrite <- Hmt.
  destruct H as [Hz | [Ht Hsome]].
  - now rewrite Hz.
  - destruct (IsZero (modelTable q1)); [|reflexivity]. cbn [negb].
    rewrite <- Ht. destruct (table q1); [reflexivity | contradiction].
Qed.

Lemma firstTable_precedence_witness :
  let q1 := with_tables (boundTo (structTableModel userTable user) 0%Z)
              [UnsafeIdent "other"] in
  let q2 := boundTo (structTableModel userTable user) 0%Z in
  _appendFirstTable q1 literalFormatter "FROM " true
  = _appendFirstTable q2 literalFormatter "FROM " true
  /\ _appendFirstTable q2 literalFormatter "FROM " true = Ok "FROM users AS u".
Proof.
  intros q1 q2. split; [|reflexivity].
  apply (firstTable_precedence q1 q2 literalFormatter "FROM " true eq_refl).
  right. split; [reflexivity | discriminate].
Defined.

(** X3: [appendOtherTables] panics exactly when the query has no table
    at all; when [hasMultiTables] is false on a query that has a table it
    leaves the buffer as it is. *)
Theorem otherTables_panic_iff_no_tables (q : baseQuery) (fmter : QueryFormatter)
    (b : string) :
  (appendOtherTables q fmter b = Panic <-> hasTables q = false)
  /\ (hasTables q = true -> hasMultiTables q = false ->
      appendOtherTables q fmter b = Ok b).
Proof.
  unfold appendOtherTables, hasTables, hasMultiTables.
  destruct (modelHasTableName q); cbn [negb orb bind].
  - split.
    + split; [|discriminate]. intros H. now apply appendFragments_not_Panic in H.
    + intros _ H. destruct (tables q); [reflexivity | discriminate].
  - destruct (tables q) as [|t0 rest]; cbn [bind List.length].
    + split; [split; reflexivity | discriminate].
    + split.
      * split; [|discriminate]. intros H. now apply appendFragments_not_Panic in H.
      * intros _ H. destruct rest; [reflexivity | discriminate].
Qed.

Lemma otherTables_panic_iff_no_tables_witness :
  let q := boundTo (structTableModel userTable user) 0%Z in
  hasMultiTables q = false
  /\ appendOtherTables q literalFormatter "FROM users" = Ok "FROM users"
  /\ appendOtherTables (mkBaseQuery None None None None zeroQuery [] None 0%Z)
       literalFormatter "" = Panic.
Proof.
  intros q. split; [reflexivity|]. split.
  - apply (otherTables_panic_iff_no_tables q literalFormatter "FROM users");
      reflexivity.
  - apply (otherTables_panic_iff_no_tables
             (mkBaseQuery None None None None zeroQuery [] None 0%Z)
             literalFormatter "").
    reflexivity.
Defined.

(** X4: when the table list supplies the first table, the first table
    followed, if [hasMultiTables] holds, by a comma and the other tables
    is the whole table list, comma-joined: every table is written once. *)
Theorem tables_written_once (q : baseQuery) (fmter : QueryFormatter) (b : string) :
  modelHasTableName q = false -> tables q <> [] ->
  (b1 <- appendFirstTable q fmter b ;;
   if hasMultiTables q then appendOtherTables q fmter (b1 ++ ", ") else Ok b1)
  = appendFragments 0 (tables q) fmter b.
Proof.
  intros Hm Hts.
  unfold appendFirstTable, _appendFirstTable, hasMultiTables, appendOtherTables.
  rewrite Hm. unfold modelHasTableName in Hm.
  apply orb_false_iff in Hm. destruct Hm as [Hz Ht]. rewrite Hz. cbn [negb].
  destruct (table q); [discriminate|].
  destruct (tables q) as [|t0 rest]; [contradiction|].
  cbn [appendFragments bind]. change (0 <? 0)%nat with false. cbv iota.
  destruct (AppendQuery t0 fmter b) as [b1| |]; cbn [bind]; try reflexivity.
  rewrite !appendFragments_texts.
  destruct rest as [|t1 rest]; [reflexivity|].
  reflexivity.
Qed.

Lemma tables_written_once_witness :
  let q := with_tables (mkBaseQuery None None None None zeroQuery [] None 0%Z)
             [UnsafeIdent "a"; UnsafeIdent "b"; UnsafeIdent "c"] in
  (b1 <- appendFirstTable q literalFormatter "FROM " ;;
   if hasMultiTables q then appendOtherTables q literalFormatter (b1 ++ ", ")
   else Ok b1)
  = Ok "FROM a, b, c".
Proof.
  intros q.
  rewrite (tables_written_once q literalFormatter "FROM ");
    [reflexivity | reflexivity | discriminate].
Defined.

(** ** Resolving the column list *)

Lemma _getFields_loop_exact (lookup : Table -> string -> error + Field)
    (t : Table) (omitPK : bool) :
  forall (cols : list QueryWithArgs) (resolved acc : list Field),
    Forall2 (fun col f => lookup t (Query col) = inr f)
      (filter (fun c => isNil (Args c)) cols) resolved ->
    _getFields_loop lookup (Some t) cols omitPK acc
    = Ok (acc ++ filter (fun f => negb (omitPK && IsPK f)) resolved)%list.
Proof.
  induction cols as [|col cols IH]; intros resolved acc H.
  - cbn in H. inversion H; subst. cbn. now rewrite app_nil_r.
  - cbn [_getFields_loop]. cbn [filter] in H.
    destruct (isNil (Args col)); cbn [negb].
    + inversion H as [|c f cs fs Hc Hrest]; subst. rewrite Hc.
      cbn [filter]. destruct (omitPK && IsPK f); cbn [negb].
      * now apply IH.
      * rewrite (IH fs (acc ++ [f])%list Hrest). now rewrite <- app_assoc.
    + now apply IH.
Qed.

(** X6: when every raw-identifier column resolves, [_getFields] returns
    the resolved fields in column order, columns that carry arguments
    being skipped; with [omitPK] the primary-key fields are left out, so
    no field it returns is a primary key. *)
Theorem getFields_resolves_raw_columns (lookup : Table -> string -> error + Field)
    (q : baseQuery) (t : Table) (omitPK : bool) (resolved : list Field) :
  table q = Some t ->
  Forall2 (fun col f => lookup t (Query col) = inr f)
    (filter (fun c => isNil (Args c)) (slice_elems (columns q))) resolved ->
  _getFields lookup q omitPK
  = Ok (filter (fun f => negb (omitPK && IsPK f)) resolved)
  /\ (forall fs f, _getFields lookup q true = Ok fs -> In f fs -> IsPK f = false).
Proof.
  intros Ht H. unfold _getFields. rewrite Ht.
  rewrite !(_getFields_loop_exact lookup t _ _ resolved []) by exact H.
  split; [reflexivity|].
  intros fs f Hfs Hin. injection Hfs as <-. cbn in Hin.
  apply filter_In in Hin. destruct Hin as [_ Hf].
  now destruct (IsPK f).
Qed.

Lemma getFields_resolves_raw_columns_witness :
  let lookup := fun (t : Table) (name : string) =>
                  match find (fun f => Name f =? name) (Fields t) with
                  | Some f => inr f
                  | None => inl (errorsNew "unknown column")
                  end in
  let q := addColumn
             (addColumn
                (addColumn (boundTo (structTableModel accountTable account) 0%Z)
                   (UnsafeIdent "name"))
                (SafeQuery "count(*)" (Some [])))
             (UnsafeIdent "id") in
  _getFields lookup q false = Ok [nameField; idField]
  /\ _getFields lookup q true = Ok [nameField].
Proof.
  intros lookup q.
  assert (H : Forall2 (fun col f => lookup accountTable (Query col) = inr f)
                (filter (fun c => isNil (Args c)) (slice_elems (columns q)))
                [nameField; idField])
    by (repeat constructor).
  split.
  - apply (getFields_resolves_raw_columns lookup q accountTable false
             [nameField; idField] eq_refl H).
  - apply (getFields_resolves_raw_columns lookup q accountTable true
             [nameField; idField] eq_refl H).
Defined.

Lemma excludeColumn_loop_keeps_model (cols : list string) :
  forall q : baseQuery,
    tableModel_ (excludeColumn_loop q cols) = tableModel_ q
    /\ table (excludeColumn_loop q cols) = table q.
Proof.
  induction cols as [|c cols IH]; intros q; cbn [excludeColumn_loop]; [now auto|].
  unfold _excludeColumn. destruct (columns q) as [cs|].
  - destruct (_excludeColumn_from 0 cs cs c) as [cs'|].
    + destruct (IH (with_columns q (Some cs'))) as [H1 H2]. now rewrite H1, H2.
    + unfold setErr. now destruct (err q).
  - unfold setErr. now destruct (err q).
Qed.

Lemma excludeColumn_keeps_model (q q' : baseQuery) (cols : list string) :
  excludeColumn q cols = Ok q' ->
  tableModel_ q' = tableModel_ q /\ table q' = table q.
Proof.
  unfold excludeColumn. intros H.
  destruct (columns q) as [cs|].
  - cbn in H. injection H as <-. apply excludeColumn_loop_keeps_model.
  - destruct (table q) as [t|] eqn:Ht; [|discriminate]. cbn in H. injection H as <-.
    rewrite materialize_columns.
    destruct (excludeColumn_loop_keeps_model cols
                (with_columns q
                   match Fields t with
                   | [] => columns q
                   | _ :: _ =>
                       Some (slice_elems (columns q)
                               ++ map (fun f => UnsafeIdent (Name f)) (Fields t))%list
                   end)) as [H1 H2].
    rewrite H1, H2. cbn. now rewrite Ht.
Qed.

(** X7: an emptied column list counts as no column list.  Once
    [excludeColumn] has removed every column, [getFields] returns all
    the fields of the table again, and [getDataFields] its data
    fields. *)
Theorem getFields_after_excluding_all (lookup : Table -> string -> error + Field)
    (q q' : baseQuery) (tm : tableModel) (names : list string) :
  tableModel_ q = Some tm -> table q = Some (tableModel_Table tm) ->
  excludeColumn q names = Ok q' -> columns q' = Some [] ->
  getFields lookup q' = Ok (Fields (tableModel_Table tm))
  /\ getDataFields lookup q' = Ok (DataFields (tableModel_Table tm)).
Proof.
  intros Htm Ht Hex Hcols.
  destruct (excludeColumn_keeps_model _ _ _ Hex) as [H1 H2].
  unfold getFields, getDataFields. rewrite H1, H2, Htm, Ht, Hcols. now cbn.
Qed.

Lemma getFields_after_excluding_all_witness :
  let lookup := fun (t : Table) (name : string) =>
                  match find (fun f => Name f =? name) (Fields t) with
                  | Some f => inr f
                  | None => inl (errorsNew "unknown column")
                  end in
  let q := boundTo (sliceTableModel (itemTable "item") items) 0%Z in
  exists q',
    excludeColumn q ["id"; "name"] = Ok q'
    /\ columns q' = Some []
    /\ getFields lookup q' = Ok [idField; nameField].
Proof.
  intros lookup q. eexists. split; [reflexivity|]. split; [reflexivity|].
  apply (getFields_after_excluding_all lookup q _
           (sliceTableModel (itemTable "item") items) ["id"; "name"]);
    reflexivity.
Defined.

Lemma filter_raw_idents (fs : list Field) :
  filter (fun c => isNil (Args c)) (map (fun f => UnsafeIdent (Name f)) fs)
  = map (fun f => UnsafeIdent (Name f)) fs.
Proof.
  induction fs as [|f fs IH]; cbn; [reflexivity | now rewrite IH].
Qed.

(** X8: excluding a column and resolving the column list.  On a builder
    without explicit columns, whose table resolves each of its fields by
    name, [excludeColumn] of a field's name followed by [getFields]
    returns the table's fields without the first field of that name, in
    their order; [getDataFields] returns those of them that are no
    primary key.  (At least one field must remain: an emptied column
    list counts as none.) *)
Theorem exclude_then_getFields (lookup : Table -> string -> error + Field)
    (q : baseQuery) (tm : tableModel) (l1 l2 : list Field) (f : Field) :
  tableModel_ q = Some tm -> table q = Some (tableModel_Table tm) ->
  columns q = None ->
  Fields (tableModel_Table tm) = (l1 ++ f :: l2)%list ->
  (forall g, In g l1 -> Name g <> Name f) ->
  (l1 ++ l2)%list <> [] ->
  (forall g, In g (l1 ++ l2)%list -> lookup (tableModel_Table tm) (Name g) = inr g) ->
  exists q',
    excludeColumn q [Name f] = Ok q'
    /\ getFields lookup q' = Ok (l1 ++ l2)%list
    /\ getDataFields lookup q'
       = Ok (filter (fun g => negb (IsPK g)) (l1 ++ l2)%list).
Proof.
  intros Htm Ht Hcols Hfields Hl1 Hne Hlookup.
  set (ident := fun g : Field => UnsafeIdent (Name g)).
  assert (Heff : effectiveColumns q (tableModel_Table tm)
                 = Some (map ident l1 ++ ident f :: map ident l2)%list).
  { unfold effectiveColumns. rewrite Hcols, Hfields.
    destruct l1 as [|g l1']; cbn [app map]; [reflexivity|].
    now rewrite map_app. }
  assert (Hex : excludeColumn q [Name f]
                = Ok (with_columns q (Some (map ident l1 ++ map ident l2)%list))).
  { rewrite (excludeColumn_materializes q _ [Name f] Ht), Heff.
    cbn [excludeColumn_loop]. unfold _excludeColumn. cbn [columns with_columns].
    pose proof (_excludeColumn_from_found (Name f) (ident f) (map ident l2)) as Hfound.
    specialize (Hfound ltac:(unfold matches, ident; cbn; apply String.eqb_refl)
                  (map ident l1) []).
    cbn [List.length app] in Hfound. rewrite Hfound; [reflexivity|].
    intros x Hx. apply in_map_iff in Hx. destruct Hx as (g & <- & Hg).
    unfold matches, ident. cbn. apply String.eqb_neq. now apply Hl1. }
  exists (with_columns q (Some (map ident l1 ++ map ident l2)%list)).
  split; [exact Hex|].
  assert (Hres : Forall2
                   (fun col g => lookup (tableModel_Table tm) (Query col) = inr g)
                   (filter (fun c => isNil (Args c))
                      (map ident l1 ++ map ident l2)%list)
                   (l1 ++ l2)%list).
  { rewrite <- map_app. unfold ident. rewrite filter_raw_idents.
    revert Hlookup. generalize (l1 ++ l2)%list. intros l Hl.
    induction l as [|g l IH]; cbn; constructor.
    - cbn. apply Hl. now left.
    - apply IH. intros g' Hg'. apply Hl. now right. }
  assert (Hlen : (List.length (map ident l1 ++ map ident l2)%list =? 0)%nat = false).
  { rewrite <- map_app, length_map. destruct (l1 ++ l2)%list; [contradiction|reflexivity]. }
  unfold getFields, getDataFields, _getFields.
  cbn [tableModel_ table columns with_columns slice_elems].
  rewrite Htm, Ht, Hlen.
  rewrite !(_getFields_loop_exact lookup _ _ _ (l1 ++ l2)%list []) by exact Hres.
  cbn [app andb negb]. split; [|reflexivity].
  f_equal. clear. induction (l1 ++ l2)%list as [|g l IH]; cbn [filter];
    [reflexivity | now rewrite IH].
Qed.

Lemma exclude_then_getFields_witness :
  let lookup := fun (t : Table) (name : string) =>
                  match find (fun f => Name f =? name) (Fields t) with
                  | Some f => inr f
                  | None => inl (errorsNew "unknown column")
                  end in
  let q := boundTo (structTableModel accountTable account) 0%Z in
  exists q',
    excludeColumn q ["tenant"] = Ok q'
    /\ getFields lookup q' = Ok [idField; nameField]
    /\ getDataFields lookup q' = Ok [nameField].
Proof.
  intros lookup q.
  apply (exclude_then_getFields lookup q (structTableModel accountTable account)
           [idField] [nameField] tenantField);
    try reflexivity; try discriminate.
  - intros g [<-|[]]. discriminate.
  - intros g [<-|[<-|[]]]; reflexivity.
Defined.

(** ** More on excludeColumn *)

Lemma _excludeColumn_from_inv (name : string) :
  forall (rest pre cs' : list QueryWithArgs),
    _excludeColumn_from (List.length pre) rest (pre ++ rest)%list name = Some cs' ->
    exists l1 c l2,
      rest = (l1 ++ c :: l2)%list /\ cs' = (pre ++ l1 ++ l2)%list
      /\ matches name c = true.
Proof.
  induction rest as [|col rest IH]; intros pre cs' H; [discriminate|].
  cbn [_excludeColumn_from] in H.
  destruct (isNil (Args col) && (Query col =? name)) eqn:Hm.
  - injection H as <-. exists [], col, rest.
    change (match (pre ++ col :: rest)%list with
            | [] => []
            | _ :: l => skipn (List.length pre) l
            end) with (skipn (S (List.length pre)) (pre ++ col :: rest)%list).
    rewrite firstn_length_app, skipn_S_length_app. now auto.
  - specialize (IH (pre ++ [col])%list cs').
    rewrite length_app, Nat.add_1_r, <- app_assoc in IH. cbn [app] in IH.
    destruct (IH H) as (l1 & c & l2 & -> & -> & Hc).
    exists (col :: l1), c, l2. rewrite <- app_assoc. now auto.
Qed.

Lemma _excludeColumn_length (q : baseQuery) (name : string) :
  let (q', found) := _excludeColumn q name in
  err q' = err q
  /\ if found
     then S (List.length (slice_elems (columns q')))
          = List.length (slice_elems (columns q))
          /\ incl (slice_elems (columns q')) (slice_elems (columns q))
     else q' = q.
Proof.
  unfold _excludeColumn. destruct (columns q) as [cs|] eqn:Hc; [|now auto].
  destruct (_excludeColumn_from 0 cs cs name) as [cs'|] eqn:E; [|now auto].
  destruct (_excludeColumn_from_inv name cs [] cs' E) as (l1 & c & l2 & -> & -> & _).
  cbn [columns with_columns err slice_elems app]. split; [reflexivity|]. split.
  - rewrite !length_app. cbn. lia.
  - intros x Hx. apply in_app_iff in Hx. apply in_app_iff.
    destruct Hx as [Hx|Hx]; [now left | right; now right].
Qed.

Lemma excludeColumn_loop_counts (names : list string) :
  forall q : baseQuery,
    incl (slice_elems (columns (excludeColumn_loop q names))) (slice_elems (columns q))
    /\ (err q = None -> err (excludeColumn_loop q names) = None ->
        (List.length (slice_elems (columns (excludeColumn_loop q names)))
         + List.length names
         = List.length (slice_elems (columns q)))%nat).
Proof.
  induction names as [|name names IH]; intros q; cbn [excludeColumn_loop].
  - split; [apply incl_refl | intros _ _; cbn; lia].
  - pose proof (_excludeColumn_length q name) as H.
    destruct (_excludeColumn q name) as [q1 found]. destruct H as [He H].
    destruct found.
    + destruct H as [Hlen Hincl]. destruct (IH q1) as [IHi IHc]. split.
      * eapply incl_tran; eassumption.
      * intros Hn Hn'. rewrite <- He in Hn. specialize (IHc Hn Hn').
        cbn [List.length]. lia.
    + subst q1. split.
      * unfold setErr. destruct (err q); apply incl_refl.
      * intros Hn Hn'. rewrite err_setErr, Hn in Hn'. discriminate Hn'.
Qed.

(** X9: [excludeColumn] only removes.  On a bound table every column
    left by a call was in the column list before (the explicit one or
    the table's fields), and when no error is recorded before or by the
    call, each name of the call has removed exactly one column. *)
Theorem excludeColumn_only_removes (q q' : baseQuery) (t : Table)
    (names : list string) :
  table q = Some t -> excludeColumn q names = Ok q' ->
  incl (slice_elems (columns q')) (slice_elems (effectiveColumns q t))
  /\ (err q = None -> err q' = None ->
      (List.length (slice_elems (columns q')) + List.length names
       = List.length (slice_elems (effectiveColumns q t)))%nat).
Proof.
  intros Ht H. rewrite (excludeColumn_materializes q t names Ht) in H.
  injection H as <-.
  apply (excludeColumn_loop_counts names (with_columns q (effectiveColumns q t))).
Qed.

Lemma excludeColumn_only_removes_witness :
  let q := boundTo (structTableModel accountTable account) 0%Z in
  exists q',
    excludeColumn q ["name"; "id"] = Ok q'
    /\ (List.length (slice_elems (columns q')) + 2 = 3)%nat.
Proof.
  intros q. eexists. split; [reflexivity|].
  apply (excludeColumn_only_removes q _ accountTable ["name"; "id"] eq_refl eq_refl);
    reflexivity.
Defined.

(** X10: an unknown name ends the call: the names after it are not
    looked at, so their columns stay. *)
Theorem excludeColumn_stops_at_unknown (q : baseQuery) (t : Table)
    (name : string) (rest : list string) :
  table q = Some t ->
  (forall x, In x (slice_elems (effectiveColumns q t)) -> matches name x = false) ->
  excludeColumn q (name :: rest) = excludeColumn q [name].
Proof.
  intros Ht Hnone.
  rewrite !(excludeColumn_materializes q t _ Ht).
  cbn [excludeColumn_loop]. unfold _excludeColumn.
  destruct (effectiveColumns q t) as [cs|]; cbn [columns with_columns].
  - now rewrite (_excludeColumn_from_none name cs cs 0 Hnone).
  - reflexivity.
Qed.

Lemma excludeColumn_stops_at_unknown_witness :
  let q := boundTo (structTableModel accountTable account) 0%Z in
  excludeColumn q ["nope"; "id"] = excludeColumn q ["nope"]
  /\ exists q', excludeColumn q ["nope"; "id"] = Ok q'
                /\ columns q' = Some [UnsafeIdent "id"; UnsafeIdent "tenant";
                                      UnsafeIdent "name"].
Proof.
  intros q. split.
  - apply (excludeColumn_stops_at_unknown q accountTable "nope" ["id"] eq_refl).
    intros x [<-|[<-|[<-|[]]]]; reflexivity.
  - eexists. split; reflexivity.
Defined.

(** ** Rendering does not depend on what the buffer already holds *)

Lemma ltb_add_l (n x y : nat) : (n + x <? n + y)%nat = (x <? y)%nat.
Proof.
  destruct (Nat.ltb_spec (n + x) (n + y)), (Nat.ltb_spec x y);
    try reflexivity; lia.
Qed.

Lemma AppendQuery_prefix (f : QueryWithArgs) (fmter : QueryFormatter) (a b : string) :
  AppendQuery f fmter (a ++ b) = (r <- AppendQuery f fmter b ;; Ok (a ++ r)).
Proof.
  unfold AppendQuery. destruct (fmtFragment fmter f); cbn; [|reflexivity].
  now rewrite append_assoc.
Qed.

Lemma appendFragments_prefix (fmter : QueryFormatter) (fs : list QueryWithArgs)
    (i : nat) (a b : string) :
  appendFragments i fs fmter (a ++ b)
  = (r <- appendFragments i fs fmter b ;; Ok (a ++ r)).
Proof.
  rewrite !appendFragments_texts.
  destruct (fragmentTexts fmter fs) as [ts| |]; cbn [bind]; try reflexivity.
  destruct fs; [reflexivity|].
  destruct (0 <? i)%nat; now rewrite !append_assoc.
Qed.

Lemma _appendFirstTable_prefix (q : baseQuery) (fmter : QueryFormatter)
    (withAlias : bool) (a b : string) :
  _appendFirstTable q fmter (a ++ b) withAlias
  = (r <- _appendFirstTable q fmter b withAlias ;; Ok (a ++ r)).
Proof.
  unfold _appendFirstTable.
  destruct (negb (IsZero (modelTable q))); [apply AppendQuery_prefix|].
  destruct (table q) as [t|].
  - unfold FormatQuery. cbn [bind].
    destruct (withAlias && negb (Alias t =? TableSQLName t));
      now rewrite !append_assoc.
  - destruct (tables q); [reflexivity | apply AppendQuery_prefix].
Qed.

Lemma appendWherePKStruct_from_prefix (t : Table) (fmter : QueryFormatter)
    (isTemplate : bool) (strct : Value) (pks : list Field) :
  forall (i : nat) (a b : string),
    appendWherePKStruct_from i t pks fmter isTemplate (a ++ b) strct
    = a ++ appendWherePKStruct_from i t pks fmter isTemplate b strct.
Proof.
  induction pks as [|f pks IH]; intros i a b; [reflexivity|].
  cbn [appendWherePKStruct_from]. unfold AppendValue.
  destruct (0 <? i)%nat, isTemplate; rewrite <- IH; now rewrite !append_assoc.
Qed.

Lemma appendPKValues_from_prefix (fmter : QueryFormatter) (isTemplate : bool)
    (el : Value) (pks : list Field) :
  forall (i : nat) (a b : string),
    appendPKValues_from i pks fmter isTemplate (a ++ b) el
    = a ++ appendPKValues_from i pks fmter isTemplate b el.
Proof.
  induction pks as [|f pks IH]; intros i a b; [reflexivity|].
  cbn [appendPKValues_from]. unfold AppendValue.
  destruct (0 <? i)%nat, isTemplate; rewrite <- IH; now rewrite !append_assoc.
Qed.

Lemma appendWherePKSlice_from_prefix (pks : list Field) (fmter : QueryFormatter)
    (isTemplate : bool) (elems : list Value) :
  forall (i : nat) (a b : string),
    appendWherePKSlice_from i elems pks fmter isTemplate (a ++ b)
    = a ++ appendWherePKSlice_from i elems pks fmter isTemplate b.
Proof.
  induction elems as [|e elems IH]; intros i a b; [reflexivity|].
  cbn [appendWherePKSlice_from].
  destruct ((0 <? i)%nat && isTemplate); [reflexivity|].
  rewrite <- IH.
  destruct (0 <? i)%nat, (1 <? List.length pks)%nat;
    rewrite ?append_assoc, ?appendPKValues_from_prefix, ?append_assoc;
    reflexivity.
Qed.

Lemma appendWherePK_prefix (q : whereBaseQuery) (fmter : QueryFormatter)
    (a b : string) :
  appendWherePK q fmter (a ++ b) = (r <- appendWherePK q fmter b ;; Ok (a ++ r)).
Proof.
  unfold appendWherePK, appendWherePKStruct, appendWherePKSlice.
  destruct (table (base q)) as [t|]; [|reflexivity].
  destruct (CheckPKs t); [reflexivity|].
  destruct (tableModel_ (base q)) as [[t' s|t' s|k t']|]; try reflexivity;
    cbn [bind].
  - rewrite append_assoc, appendWherePKStruct_from_prefix.
    now rewrite append_assoc.
  - rewrite !appendColumns_text.
    destruct (1 <? List.length (PKs t))%nat;
      rewrite ?append_assoc, appendWherePKSlice_from_prefix, ?append_assoc;
      reflexivity.
Qed.

Lemma grown_prefix (a w r s : string) :
  (if (String.length (a ++ w) <? String.length (a ++ r))%nat
   then (a ++ r) ++ s else a ++ r)
  = a ++ (if (String.length w <? String.length r)%nat then r ++ s else r).
Proof.
  rewrite !length_append, ltb_add_l.
  destruct (String.length w <? String.length r)%nat;
    [apply append_assoc | reflexivity].
Qed.

Lemma appendWhereSoftDelete_prefix (q : whereBaseQuery) (a b : string) :
  appendWhereSoftDelete q (a ++ b)
  = (r <- appendWhereSoftDelete q b ;; Ok (a ++ r)).
Proof.
  unfold appendWhereSoftDelete.
  destruct (tableModel_ (base q)) as [tm|]; [|reflexivity].
  destruct (SoftDeleteField (tableModel_Table tm)); [|reflexivity].
  destruct (Flag.Has (flags (base q)) deletedFlag); cbn [bind];
    now rewrite !append_assoc.
Qed.

Lemma appendWhere_prefix (q : whereBaseQuery) (fmter : QueryFormatter)
    (a b : string) :
  appendWhere q fmter (a ++ b) = (r <- appendWhere q fmter b ;; Ok (a ++ r)).
Proof.
  unfold appendWhere.
  destruct ((List.length (where_ (wq q)) =? 0)%nat
            && negb (isSoftDelete (base q))
            && negb (Flag.Has (flags (base q)) wherePKFlag)); [reflexivity|].
  rewrite (append_assoc a b " WHERE "). set (w := b ++ " WHERE ").
  assert (P1 : (if (0 <? List.length (where_ (wq q)))%nat
                then _appendWhere fmter (a ++ w) (where_ (wq q))
                else Ok (a ++ w))
               = (r <- (if (0 <? List.length (where_ (wq q)))%nat
                        then _appendWhere fmter w (where_ (wq q))
                        else Ok w) ;;
                  Ok (a ++ r))).
  { destruct (0 <? List.length (where_ (wq q)))%nat; [|reflexivity].
    apply _appendWhere_from_prefix. }
  rewrite P1. clear P1.
  destruct (if (0 <? List.length (where_ (wq q)))%nat
            then _appendWhere fmter w (where_ (wq q))
            else Ok w) as [r1| |]; cbn [bind]; try reflexivity.
  rewrite grown_prefix.
  set (r1' := if (String.length w <? String.length r1)%nat
              then r1 ++ " AND " else r1).
  assert (P2 : (if isSoftDelete (base q)
                then match tableModel_ (base q) with
                     | Some tm =>
                         appendWhereSoftDelete q ((a ++ r1') ++ Alias (tableModel_Table tm))
                     | None => Panic
                     end
                else Ok (a ++ r1))
               = (r <- (if isSoftDelete (base q)
                        then match tableModel_ (base q) with
                             | Some tm =>
                                 appendWhereSoftDelete q (r1' ++ Alias (tableModel_Table tm))
                             | None => Panic
                             end
                        else Ok r1) ;;
                  Ok (a ++ r))).
  { destruct (isSoftDelete (base q)); [|reflexivity].
    destruct (tableModel_ (base q)) as [tm|]; [|reflexivity].
    rewrite append_assoc. apply appendWhereSoftDelete_prefix. }
  rewrite P2. clear P2.
  destruct (if isSoftDelete (base q)
            then match tableModel_ (base q) with
                 | Some tm =>
                     appendWhereSoftDelete q (r1' ++ Alias (tableModel_Table tm))
                 | None => Panic
                 end
            else Ok r1) as [r2| |]; cbn [bind]; try reflexivity.
  destruct (Flag.Has (flags (base q)) wherePKFlag); [|reflexivity].
  rewrite grown_prefix. apply appendWherePK_prefix.
Qed.

(** X11: the text [appendWhere] appends does not depend on the buffer
    it is given; in particular the [ AND ] between the where list and the
    soft-delete and primary-key predicates is decided by what the clause
    itself has written, not by what the buffer held before. *)
Theorem appendWhere_buffer_independent (q : whereBaseQuery)
    (fmter : QueryFormatter) (b : string) :
  appendWhere q fmter b = (r <- appendWhere q fmter "" ;; Ok (b ++ r)).
Proof.
  rewrite <- (append_nil_r b) at 1. apply appendWhere_prefix.
Qed.

Lemma appendWhere_empty (q : whereBaseQuery) (fmter : QueryFormatter) (a : string) :
  appendWhere q fmter a = (r <- appendWhere q fmter "" ;; Ok (a ++ r)).
Proof.
  rewrite <- (append_nil_r a) at 1. apply appendWhere_prefix.
Qed.

(** ** The CREATE INDEX statement *)

Lemma if_opt (c : bool) (b s : string) :
  (if c then b ++ s else b) = b ++ opt c s.
Proof. destruct c; cbn; [reflexivity | now rewrite append_nil_r]. Qed.

Lemma AppendQuery_empty (f : QueryWithArgs) (fmter : QueryFormatter) (a : string) :
  AppendQuery f fmter a = (r <- AppendQuery f fmter "" ;; Ok (a ++ r)).
Proof. rewrite <- (append_nil_r a) at 1. apply AppendQuery_prefix. Qed.

Lemma appendFirstTable_empty (q : baseQuery) (fmter : QueryFormatter) (a : string) :
  appendFirstTable q fmter a = (r <- appendFirstTable q fmter "" ;; Ok (a ++ r)).
Proof.
  unfold appendFirstTable. rewrite <- (append_nil_r a) at 1.
  apply _appendFirstTable_prefix.
Qed.

Lemma appendFragments_empty (fmter : QueryFormatter) (fs : list QueryWithArgs)
    (a : string) :
  appendFragments 0 fs fmter a
  = (ts <- fragmentTexts fmter fs ;; Ok (a ++ String.concat ", " ts)).
Proof.
  rewrite appendFragments_texts.
  destruct fs; [cbn; now rewrite append_nil_r | reflexivity].
Qed.

(** X12: the shape of the statement.  Without a recorded error,
    [AppendQuery] writes, after what the buffer holds, [CREATE], the
    optional [UNIQUE], [FULLTEXT] and [SPATIAL], [INDEX], the optional
    [CONCURRENTLY] and [IF NOT EXISTS], the index expression, [ON] and the
    first table, the optional [USING] method, the comma-joined column
    list in parentheses, the optional [INCLUDE] list and the WHERE
    clause; the first part that does not render gives the error. *)
Theorem createIndex_statement_shape (q : CreateIndexQuery) (fmter : QueryFormatter)
    (b : string) :
  err (baseOf q) = None ->
  CreateIndexQuery_AppendQuery q fmter b
  = (idx <- AppendQuery (index q) fmter "" ;;
     tbl <- appendFirstTable (baseOf q) fmter "" ;;
     usg <- (if negb (IsZero (using_ q))
             then AppendQuery (using_ q) fmter " USING " else Ok "") ;;
     cols <- fragmentTexts fmter (slice_elems (columns (baseOf q))) ;;
     inc <- (if (0 <? List.length (include q))%nat
             then ts <- fragmentTexts fmter (include q) ;;
                  Ok (" INCLUDE (" ++ String.concat ", " ts ++ ")")
             else Ok "") ;;
     wh <- appendWhere (wbq q) fmter "" ;;
     Ok (b ++ "CREATE " ++ opt (unique q) "UNIQUE " ++ opt (fulltext q) "FULLTEXT "
           ++ opt (spatial q) "SPATIAL " ++ "INDEX "
           ++ opt (concurrently q) "CONCURRENTLY "
           ++ opt (ifNotExists q) "IF NOT EXISTS "
           ++ idx ++ " ON " ++ tbl ++ usg
           ++ " (" ++ String.concat ", " cols ++ ")" ++ inc ++ wh)).
Proof.
  intros Herr. unfold CreateIndexQuery_AppendQuery. rewrite Herr.
  rewrite !if_opt.
  set (rIdx := AppendQuery (index q) fmter "").
  rewrite AppendQuery_empty. fold rIdx.
  destruct rIdx as [idx| |]; cbn [bind]; try reflexivity.
  set (rTbl := appendFirstTable (baseOf q) fmter "").
  rewrite appendFirstTable_empty. fold rTbl.
  destruct rTbl as [tbl| |]; cbn [bind]; try reflexivity.
  match goal with
  | |- context [if negb (IsZero (using_ q)) then AppendQuery _ _ (?p ++ _) else _] =>
      set (pfx := p)
  end.
  assert (Hu : (if negb (IsZero (using_ q))
                then AppendQuery (using_ q) fmter (pfx ++ " USING ")
                else Ok pfx)
               = (r <- (if negb (IsZero (using_ q))
                        then AppendQuery (using_ q) fmter " USING " else Ok "") ;;
                  Ok (pfx ++ r))).
  { destruct (negb (IsZero (using_ q))).
    - apply AppendQuery_prefix.
    - cbn. now rewrite append_nil_r. }
  rewrite Hu. clear Hu.
  destruct (if negb (IsZero (using_ q))
            then AppendQuery (using_ q) fmter " USING " else Ok "")
    as [usg| |]; cbn [bind]; try reflexivity.
  rewrite appendFragments_empty.
  destruct (fragmentTexts fmter (slice_elems (columns (baseOf q))))
    as [cols| |]; cbn [bind]; try reflexivity.
  match goal with
  | |- context [appendFragments 0 (include q) fmter (?p ++ _)] => set (pfx2 := p)
  end.
  assert (Hi : (if (0 <? List.length (include q))%nat
                then b0 <- appendFragments 0 (include q) fmter (pfx2 ++ " INCLUDE (") ;;
                     Ok (b0 ++ ")")
                else Ok pfx2)
               = (r <- (if (0 <? List.length (include q))%nat
                        then ts <- fragmentTexts fmter (include q) ;;
                             Ok (" INCLUDE (" ++ String.concat ", " ts ++ ")")
                        else Ok "") ;;
                  Ok (pfx2 ++ r))).
  { destruct (0 <? List.length (include q))%nat.
    - rewrite appendFragments_empty.
      destruct (fragmentTexts fmter (include q)); cbn [bind]; try reflexivity.
      now rewrite !append_assoc.
    - cbn. now rewrite append_nil_r. }
  rewrite Hi. clear Hi.
  destruct (if (0 <? List.length (include q))%nat
            then ts <- fragmentTexts fmter (include q) ;;
                 Ok (" INCLUDE (" ++ String.concat ", " ts ++ ")")
            else Ok "") as [inc| |]; cbn [bind]; try reflexivity.
  rewrite appendWhere_empty.
  destruct (appendWhere (wbq q) fmter "") as [wh| |]; cbn [bind]; try reflexivity.
  subst pfx pfx2. now rewrite !append_assoc.
Qed.

Lemma createIndex_statement_shape_witness :
  exists q,
    chain [Unique; IfNotExists; Index "idx_a" None; Table_ ["users"];
           Column ["a"; "b"]; Include ["c"]; CallWhere "a > 0" (Some [])]
      NewCreateIndexQuery = Ok q
    /\ CreateIndexQuery_AppendQuery q literalFormatter ""
       = Ok "CREATE UNIQUE INDEX IF NOT EXISTS idx_a ON users (a, b) INCLUDE (c) WHERE (a > 0)".
Proof.
  eexists. split; [reflexivity|].
  rewrite createIndex_statement_shape; reflexivity.
Defined.

(** ** What the WHERE clause adds to the buffer *)

Lemma extends_refl (b : string) : extends b b.
Proof. exists "". now rewrite append_nil_r. Qed.

Lemma extends_trans (a b c : string) : extends a b -> extends b c -> extends a c.
Proof.
  intros [t ->] [u ->]. exists (t ++ u). apply append_assoc.
Qed.

Lemma extends_append (b s : string) : extends b (b ++ s).
Proof. now exists s. Qed.

Lemma prefix_extends (f : string -> result string) (x out : string) :
  (forall a b, f (a ++ b) = (r <- f b ;; Ok (a ++ r))) ->
  f x = Ok out -> extends x out.
Proof.
  intros Hf H. rewrite <- (append_nil_r x), Hf in H.
  destruct (f "") as [r| |]; cbn in H; try discriminate.
  injection H as <-. now exists r.
Qed.

Lemma appendWhere_extends (q : whereBaseQuery) (fmter : QueryFormatter)
    (b out : string) :
  nothingToFilter q = false -> appendWhere q fmter b = Ok out ->
  extends (b ++ " WHERE ") out.
Proof.
  unfold nothingToFilter, appendWhere. intros -> H.
  set (w := b ++ " WHERE ") in *.
  destruct (if (0 <? List.length (where_ (wq q)))%nat
            then _appendWhere fmter w (where_ (wq q))
            else Ok w) as [r1| |] eqn:E1; cbn [bind] in H; try discriminate.
  assert (X1 : extends w r1).
  { destruct (0 <? List.length (where_ (wq q)))%nat.
    - apply (prefix_extends (fun x => _appendWhere fmter x (where_ (wq q))));
        [intros a c; apply _appendWhere_from_prefix | exact E1].
    - injection E1 as <-. apply extends_refl. }
  set (r1' := if (String.length w <? String.length r1)%nat
              then r1 ++ " AND " else r1) in *.
  assert (X1' : extends w r1').
  { unfold r1'. destruct (String.length w <? String.length r1)%nat; [|exact X1].
    eapply extends_trans; [exact X1 | apply extends_append]. }
  destruct (if isSoftDelete (base q)
            then match tableModel_ (base q) with
                 | Some tm =>
                     appendWhereSoftDelete q (r1' ++ Alias (tableModel_Table tm))
                 | None => Panic
                 end
            else Ok r1) as [r2| |] eqn:E2; cbn [bind] in H; try discriminate.
  assert (X2 : extends w r2).
  { destruct (isSoftDelete (base q)).
    - destruct (tableModel_ (base q)) as [tm|]; [|discriminate].
      eapply extends_trans; [exact X1'|].
      eapply extends_trans; [apply extends_append|].
      apply (prefix_extends (appendWhereSoftDelete q));
        [apply appendWhereSoftDelete_prefix | exact E2].
    - injection E2 as <-. exact X1. }
  destruct (Flag.Has (flags (base q)) wherePKFlag).
  - eapply extends_trans; [exact X2|].
    assert (X3 : extends r2 (if (String.length w <? String.length r2)%nat
                             then r2 ++ " AND " else r2)).
    { destruct (String.length w <? String.length r2)%nat;
        [apply extends_append | apply extends_refl]. }
    eapply extends_trans; [exact X3|].
    apply (prefix_extends (appendWherePK q fmter));
      [apply appendWherePK_prefix | exact H].
  - injection H as <-. exact X2.
Qed.

(** X13: [appendWhere] hands the buffer back as it is exactly when the
    where list is empty, no soft-delete filter is in force and the
    restrict-to-PK flag is unset; in every other case what it returns is
    the buffer, then [ WHERE ], then the predicates. *)
Theorem appendWhere_nothing_iff (q : whereBaseQuery) (fmter : QueryFormatter)
    (b : string) :
  (appendWhere q fmter b = Ok b <-> nothingToFilter q = true)
  /\ (forall out, nothingToFilter q = false -> appendWhere q fmter b = Ok out ->
        extends (b ++ " WHERE ") out).
Proof.
  split; [|intros out; apply appendWhere_extends].
  split.
  - intros H. destruct (nothingToFilter q) eqn:Hn; [reflexivity|].
    destruct (appendWhere_extends q fmter b b Hn H) as [t Ht].
    apply (f_equal String.length) in Ht. rewrite !length_append in Ht.
    cbn in Ht. lia.
  - intros Hn. unfold appendWhere. unfold nothingToFilter in Hn. now rewrite Hn.
Qed.

Lemma appendWhere_nothing_iff_witness :
  let q := mkWhereBaseQuery (boundTo (structTableModel userTable user) 0%Z)
             (mkWhereQuery []) in
  nothingToFilter q = false
  /\ exists out, appendWhere q literalFormatter "x" = Ok out
                 /\ extends ("x" ++ " WHERE ") out.
Proof.
  intros q. split; [reflexivity|]. eexists. split; [reflexivity|].
  destruct (appendWhere_nothing_iff q literalFormatter "x") as [_ H].
  apply H; reflexivity.
Defined.

(** ** The primary-key predicate in general *)

Lemma appendWherePKStruct_from_text (t : Table) (fmter : QueryFormatter)
    (isTemplate : bool) (strct : Value) (pks : list Field) :
  forall (i : nat) (b : string),
    appendWherePKStruct_from i t pks fmter isTemplate b strct
    = match pks with
      | [] => b
      | _ :: _ =>
          (if (0 <? i)%nat then b ++ " AND " else b)
          ++ String.concat " AND "
               (map (fun f => Alias t ++ "." ++ SQLName f ++ " = "
                              ++ if isTemplate then "?"
                                 else fmtValue fmter (fieldValue f strct))
                  pks)
      end.
Proof.
  induction pks as [|f rest IH]; intros i b; [reflexivity|].
  cbn [appendWherePKStruct_from]. rewrite IH. clear IH. unfold AppendValue.
  set (b1 := if (0 <? i)%nat then b ++ " AND " else b).
  set (v := if isTemplate then "?" else fmtValue fmter (fieldValue f strct)).
  assert (Hb : (if isTemplate
                then (((b1 ++ Alias t) ++ ".") ++ SQLName f) ++ " = " ++ "?"
                else ((((b1 ++ Alias t) ++ ".") ++ SQLName f) ++ " = ")
                     ++ fmtValue fmter (fieldValue f strct))
               = b1 ++ Alias t ++ "." ++ SQLName f ++ " = " ++ v).
  { unfold v. destruct isTemplate; now rewrite !append_assoc. }
  destruct rest as [|g rest].
  - cbn [map String.concat]. fold v. destruct isTemplate; unfold v;
      now rewrite !append_assoc.
  - change (0 <? S i)%nat with true. cbv iota. cbn [map String.concat]. fold v.
    destruct isTemplate; unfold v; now rewrite !append_assoc.
Qed.

(** X14: for a struct model the primary-key predicate is, in
    parentheses, one [alias.column = value] per key column of the bound
    table, joined by [ AND ]; the value is the field's literal, or [?]
    under the template formatter. *)
Theorem wherePK_struct_shape (q : whereBaseQuery) (t t' : Table) (strct : Value)
    (fmter : QueryFormatter) (b : string) :
  table (base q) = Some t -> PKs t <> [] ->
  tableModel_ (base q) = Some (structTableModel t' strct) ->
  appendWherePK q fmter b
  = Ok (b ++ "("
          ++ String.concat " AND "
               (map (fun f => Alias t ++ "." ++ SQLName f ++ " = "
                              ++ pkValueText fmter f strct) (PKs t))
          ++ ")").
Proof.
  intros Ht Hpk Htm. unfold appendWherePK, CheckPKs, appendWherePKStruct.
  rewrite Ht, Htm. destruct (PKs t) as [|f pks] eqn:E; [contradiction|].
  rewrite appendWherePKStruct_from_text. change (0 <? 0)%nat with false. cbv iota.
  unfold pkValueText. now rewrite !append_assoc.
Qed.

Lemma wherePK_struct_shape_witness :
  appendWherePK
    (mkWhereBaseQuery (boundTo (structTableModel userTable user) wherePKFlag)
       (mkWhereQuery []))
    literalFormatter "DELETE FROM users AS u WHERE "
  = Ok "DELETE FROM users AS u WHERE (u.id = 5)".
Proof.
  rewrite (wherePK_struct_shape _ userTable userTable user literalFormatter);
    [reflexivity | reflexivity | discriminate | reflexivity].
Defined.

Lemma appendPKValues_from_text (fmter : QueryFormatter) (isTemplate : bool)
    (el : Value) (pks : list Field) :
  forall (i : nat) (b : string),
    appendPKValues_from i pks fmter isTemplate b el
    = match pks with
      | [] => b
      | _ :: _ =>
          (if (0 <? i)%nat then b ++ ", " else b)
          ++ String.concat ", "
               (map (fun f => if isTemplate then "?"
                              else fmtValue fmter (fieldValue f el)) pks)
      end.
Proof.
  induction pks as [|f rest IH]; intros i b; [reflexivity|].
  cbn [appendPKValues_from]. rewrite IH. clear IH. unfold AppendValue.
  set (b1 := if (0 <? i)%nat then b ++ ", " else b).
  destruct rest as [|g rest].
  - cbn [map String.concat]. now destruct isTemplate.
  - change (0 <? S i)%nat with true. cbv iota. cbn [map String.concat].
    destruct isTemplate; now rewrite !append_assoc.
Qed.

(** One element of the IN list. *)
Lemma appendPKValues_row (fmter : QueryFormatter) (pks : list Field) (b : string)
    (el : Value) :
  (if (1 <? List.length pks)%nat
   then (appendPKValues_from 0 pks fmter (IsNopFormatter fmter)
           (if (1 <? List.length pks)%nat then b ++ "(" else b) el) ++ ")"
   else appendPKValues_from 0 pks fmter (IsNopFormatter fmter)
          (if (1 <? List.length pks)%nat then b ++ "(" else b) el)
  = b ++ wrapComposite pks
           (String.concat ", " (map (fun f => pkValueText fmter f el) pks)).
Proof.
  rewrite appendPKValues_from_text. unfold wrapComposite, pkValueText.
  change (0 <? 0)%nat with false. cbv iota.
  destruct pks as [|f [|g pks]].
  - cbn. now rewrite append_nil_r.
  - reflexivity.
  - change (1 <? List.length (f :: g :: pks))%nat with true. cbv iota.
    now rewrite !append_assoc.
Qed.

Lemma appendWherePKSlice_from_literal (pks : list Field) (fmter : QueryFormatter)
    (elems : list Value) :
  IsNopFormatter fmter = false ->
  forall (i : nat) (b : string),
    appendWherePKSlice_from i elems pks fmter (IsNopFormatter fmter) b
    = match elems with
      | [] => b
      | _ :: _ =>
          (if (0 <? i)%nat then b ++ ", " else b)
          ++ String.concat ", "
               (map (fun e => wrapComposite pks
                                (String.concat ", "
                                   (map (fun f => pkValueText fmter f (indirect e)) pks)))
                  elems)
      end.
Proof.
  intros Hnop. induction elems as [|e rest IH]; intros i b; [reflexivity|].
  cbn [appendWherePKSlice_from]. rewrite Hnop at 1. rewrite andb_false_r.
  set (b1 := if (0 <? i)%nat then b ++ ", " else b).
  rewrite (appendPKValues_row fmter pks b1 (indirect e)). rewrite IH. clear IH.
  destruct rest as [|e' rest]; [reflexivity|].
  change (0 <? S i)%nat with true. cbv iota. cbn [map String.concat].
  now rewrite !append_assoc.
Qed.

Lemma appendWherePKSlice_from_nop (pks : list Field) (fmter : QueryFormatter)
    (elems : list Value) (b : string) :
  IsNopFormatter fmter = true ->
  appendWherePKSlice_from 0 elems pks fmter (IsNopFormatter fmter) b
  = match elems with
    | [] => b
    | e :: _ =>
        b ++ wrapComposite pks
               (String.concat ", " (map (fun f => pkValueText fmter f (indirect e)) pks))
    end.
Proof.
  intros Hnop. destruct elems as [|e rest]; [reflexivity|].
  cbn [appendWherePKSlice_from]. change (0 <? 0)%nat with false. cbn [andb].
  cbv iota. rewrite (appendPKValues_row fmter pks b (indirect e)).
  rewrite Hnop. apply appendWherePKSlice_from_template.
Qed.

(** X15: for a slice model the primary-key predicate is the key columns
    behind the table alias (in parentheses when the key is composite),
    [ IN (], one comma-joined group of values per element (in parentheses
    when the key is composite) and [)].  Under the template formatter
    only the first element is shown; an empty slice gives an empty
    list. *)
Theorem wherePK_slice_shape (q : whereBaseQuery) (t t' : Table)
    (slice : list Value) (fmter : QueryFormatter) (b : string) :
  table (base q) = Some t -> PKs t <> [] ->
  tableModel_ (base q) = Some (sliceTableModel t' slice) ->
  appendWherePK q fmter b
  = Ok (b ++ wrapComposite (PKs t) (columnList (Alias t) (PKs t))
          ++ " IN ("
          ++ String.concat ", "
               (map (fun e => wrapComposite (PKs t)
                                (String.concat ", "
                                   (map (fun f => pkValueText fmter f (indirect e))
                                      (PKs t))))
                  (shownElements fmter slice))
          ++ ")").
Proof.
  intros Ht Hpk Htm. unfold appendWherePK, CheckPKs, appendWherePKSlice.
  rewrite Ht, Htm. destruct (PKs t) as [|f0 pks0] eqn:E; [contradiction|].
  rewrite <- E. clear E f0 pks0 Hpk.
  rewrite appendColumns_text.
  assert (Hcols : ((if (1 <? List.length (PKs t))%nat
                    then ((if (1 <? List.length (PKs t))%nat then b ++ "(" else b)
                          ++ columnList (Alias t) (PKs t)) ++ ")"
                    else (if (1 <? List.length (PKs t))%nat then b ++ "(" else b)
                         ++ columnList (Alias t) (PKs t)) ++ " IN (")
                  = b ++ wrapComposite (PKs t) (columnList (Alias t) (PKs t))
                      ++ " IN (").
  { unfold wrapComposite. destruct (1 <? List.length (PKs t))%nat;
      now rewrite !append_assoc. }
  rewrite Hcols. clear Hcols. unfold shownElements.
  destruct (IsNopFormatter fmter) eqn:Hnop.
  - rewrite <- Hnop at 1. rewrite appendWherePKSlice_from_nop by exact Hnop.
    destruct slice as [|e rest]; cbn [firstn map String.concat];
      now rewrite !append_assoc.
  - rewrite <- Hnop at 1. rewrite appendWherePKSlice_from_literal by exact Hnop.
    destruct slice as [|e rest]; [cbn [map String.concat]; now rewrite !append_assoc|].
    change (0 <? 0)%nat with false. cbv iota. now rewrite !append_assoc.
Qed.

Lemma wherePK_slice_shape_witness :
  let pair := fun (i : Z) (s : string) =>
                VPtr (VStruct [("ID", VInt i); ("Tenant", VString s)]) in
  let q := fun slice =>
             mkWhereBaseQuery
               (boundTo (sliceTableModel accountTable slice) wherePKFlag)
               (mkWhereQuery []) in
  appendWherePK (q [pair 1%Z "a"; pair 2%Z "b"]) literalFormatter ""
  = Ok "(t.id, t.tenant) IN ((1, 'a'), (2, 'b'))"
  /\ appendWherePK (q [pair 1%Z "a"; pair 2%Z "b"]) nopFormatter ""
     = Ok "(t.id, t.tenant) IN ((?, ?))"
  /\ appendWherePK (q []) literalFormatter "" = Ok "(t.id, t.tenant) IN ()".
Proof.
  intros pair q. split; [|split].
  - rewrite (wherePK_slice_shape _ accountTable accountTable
               [pair 1%Z "a"; pair 2%Z "b"] literalFormatter);
      [reflexivity | reflexivity | discriminate | reflexivity].
  - rewrite (wherePK_slice_shape _ accountTable accountTable
               [pair 1%Z "a"; pair 2%Z "b"] nopFormatter);
      [reflexivity | reflexivity | discriminate | reflexivity].
  - rewrite (wherePK_slice_shape _ accountTable accountTable [] literalFormatter);
      [reflexivity | reflexivity | discriminate | reflexivity].
Defined.

(** X16: under the template formatter the primary-key predicate shows
    the shape only: it is the same for any two struct values, and for any
    two slices that are not empty. *)
Theorem wherePK_template_ignores_values (q1 q2 : whereBaseQuery)
    (fmter : QueryFormatter) (b : string) :
  IsNopFormatter fmter = true ->
  table (base q1) = table (base q2) ->
  (exists t1 t2 s1 s2,
      tableModel_ (base q1) = Some (structTableModel t1 s1)
      /\ tableModel_ (base q2) = Some (structTableModel t2 s2))
  \/ (exists t1 t2 e1 e2 r1 r2,
         tableModel_ (base q1) = Some (sliceTableModel t1 (e1 :: r1))
         /\ tableModel_ (base q2) = Some (sliceTableModel t2 (e2 :: r2))) ->
  appendWherePK q1 fmter b = appendWherePK q2 fmter b.
Proof.
  intros Hnop Ht H. unfold appendWherePK, appendWherePKStruct, appendWherePKSlice.
  rewrite <- Ht. destruct (table (base q1)) as [t|]; [|reflexivity].
  destruct (CheckPKs t); [reflexivity|].
  destruct H as [(t1 & t2 & s1 & s2 & -> & ->) | (t1 & t2 & e1 & e2 & r1 & r2 & -> & ->)].
  - rewrite !appendWherePKStruct_from_text, Hnop. reflexivity.
  - rewrite !appendWherePKSlice_from_nop by exact Hnop.
    unfold pkValueText. rewrite Hnop. reflexivity.
Qed.

Lemma wherePK_template_ignores_values_witness :
  appendWherePK
    (mkWhereBaseQuery (boundTo (sliceTableModel (itemTable "i") items) wherePKFlag)
       (mkWhereQuery []))
    nopFormatter ""
  = appendWherePK
      (mkWhereBaseQuery
         (boundTo (sliceTableModel (itemTable "i") [VStruct [("ID", VInt 9)]])
            wherePKFlag)
         (mkWhereQuery []))
      nopFormatter "".
Proof.
  apply wherePK_template_ignores_values; [reflexivity | reflexivity |].
  right. unfold items. repeat eexists.
Defined.

(** ** RETURNING, further *)

Lemma existsb_Field_eqb (f : Field) (fs : list Field) :
  existsb (fun g => Field_eqb g f) fs = true <-> In (Addr f) (map Addr fs).
Proof.
  unfold Field_eqb. rewrite existsb_exists, in_map_iff. split.
  - intros (g & Hg & He). apply Nat.eqb_eq in He. now exists g.
  - intros (g & He & Hg). exists g. split; [exact Hg | now apply Nat.eqb_eq].
Qed.

(** X17: [addReturningField] never registers the same field pointer
    twice: adding a field a second time changes nothing, and a list
    whose pointers are pairwise distinct stays so.  (Two distinct
    pointers to fields with the same contents are two fields, and both
    are kept.) *)
Theorem addReturningField_no_duplicates (q : returningQuery) (f : Field) :
  addReturningField (addReturningField q f) f = addReturningField q f
  /\ (NoDup (map Addr (returningFields q)) ->
      NoDup (map Addr (returningFields (addReturningField q f))))
  /\ (forall g, returning q = [] -> returningFields q = [f] -> Addr g <> Addr f ->
        returningFields (addReturningField q g) = [f; g]).
Proof.
  unfold addReturningField. split; [|split].
  - destruct (0 <? List.length (returning q))%nat eqn:Hr.
    + now rewrite Hr.
    + destruct (existsb (fun g => Field_eqb g f) (returningFields q)) eqn:He.
      * now rewrite Hr, He.
      * cbn [returning returningFields]. rewrite Hr.
        assert (Hin : existsb (fun g => Field_eqb g f)
                        (returningFields q ++ [f])%list = true).
        { apply existsb_Field_eqb. rewrite map_app. apply in_app_iff.
          right. now left. }
        now rewrite Hin.
  - intros Hnd. destruct (0 <? List.length (returning q))%nat; [exact Hnd|].
    destruct (existsb (fun g => Field_eqb g f) (returningFields q)) eqn:He;
      [exact Hnd|].
    cbn [returningFields]. rewrite map_app. cbn [map].
    apply NoDup_app; [exact Hnd | repeat constructor; intros [] |].
    intros x Hx [Hxf|[]]. subst x.
    apply existsb_Field_eqb in Hx. rewrite Hx in He. discriminate He.
  - intros g Hr Hf Hne. rewrite Hr, Hf. cbn [List.length existsb].
    change (0 <? 0)%nat with false. cbv iota. unfold Field_eqb.
    apply Nat.eqb_neq in Hne. rewrite Nat.eqb_sym in Hne. rewrite Hne.
    reflexivity.
Qed.

Lemma addReturningField_no_duplicates_witness :
  let q := addReturningField (addReturningField (mkReturningQuery [] []) idField)
             nameField in
  let idField' := mkField 7 "id" "id" "ID" true in
  returningFields (addReturningField q idField) = [idField; nameField]
  /\ NoDup (map Addr (returningFields (addReturningField q idField)))
  /\ returningFields
       (addReturningField (addReturningField (mkReturningQuery [] []) idField)
          idField')
     = [idField; idField'].
Proof.
  intros q idField'. split; [reflexivity|]. split.
  - apply (addReturningField_no_duplicates q idField).
    repeat constructor; cbn; intuition discriminate.
  - apply (addReturningField_no_duplicates
             (addReturningField (mkReturningQuery [] []) idField) idField);
      [reflexivity | reflexivity | discriminate].
Defined.

(** X18: explicit returning expressions win.  Once one was added,
    [addReturningField] changes nothing, and [appendReturning] writes the
    expressions whatever fields were registered before. *)
Theorem returning_explicit_wins (q : returningQuery) (f : Field)
    (fs : list Field) (fmter : QueryFormatter) (b : string) :
  returning q <> [] ->
  addReturningField q f = q
  /\ appendReturning (mkReturningQuery (returning q) fs) fmter b
     = appendReturning q fmter b.
Proof.
  intros Hne. unfold addReturningField, appendReturning, hasReturning.
  cbn [returning returningFields].
  destruct (returning q) as [|r rs]; [contradiction|].
  split; [reflexivity|].
  destruct rs as [|r' rs].
  - destruct ((Query r =? "null") || (Query r =? "NULL")); reflexivity.
  - reflexivity.
Qed.

Lemma returning_explicit_wins_witness :
  let q := addReturning (addReturningField (mkReturningQuery [] []) idField)
             (SafeQuery "count(*)" (Some [])) in
  addReturningField q nameField = q
  /\ appendReturning q literalFormatter "" = Ok " RETURNING count(*)".
Proof.
  intros q.
  destruct (returning_explicit_wins q nameField [] literalFormatter "")
    as [H1 H2]; [discriminate|].
  split; [exact H1|]. rewrite <- H2. reflexivity.
Defined.

(** X19: RETURNING is off exactly when nothing was registered, or when
    the single expression is [null] or [NULL]; with fields only, the
    clause is [ RETURNING ] and their SQL names, comma-joined and
    unqualified. *)
Theorem hasReturning_iff (q : returningQuery) (fmter : QueryFormatter) (b : string) :
  (hasReturning q = false
   <-> (returning q = [] /\ returningFields q = [])
       \/ exists r, returning q = [r] /\ (Query r = "null" \/ Query r = "NULL"))
  /\ (returning q = [] -> returningFields q <> [] ->
      appendReturning q fmter b
      = Ok (b ++ " RETURNING " ++ columnList "" (returningFields q))).
Proof.
  split.
  - unfold hasReturning. destruct (returning q) as [|r [|r' rs]].
    + destruct (returningFields q); cbn; split.
      * now left.
      * reflexivity.
      * discriminate.
      * intros [[_ H]|(r & H & _)]; discriminate H.
    + destruct (String.eqb_spec (Query r) "null") as [Hn|Hn];
        destruct (String.eqb_spec (Query r) "NULL") as [Hu|Hu]; cbn; split;
          try (intros _; right; exists r; now auto); try reflexivity;
          try discriminate.
      intros [[H _]|(r0 & H & Hq)]; [discriminate H|].
      injection H as <-. destruct Hq; contradiction.
    + cbn. split; [discriminate|].
      intros [[H _]|(r0 & H & _)]; discriminate H.
  - intros Hr Hf. unfold appendReturning, hasReturning. rewrite Hr.
    destruct (returningFields q) as [|f fs] eqn:E; [contradiction|].
    cbn [List.length Nat.ltb Nat.leb orb negb appendFragments bind].
    rewrite appendColumns_text. now rewrite append_assoc.
Qed.

Lemma hasReturning_iff_witness :
  let q := addReturningField (addReturningField (mkReturningQuery [] []) idField)
             nameField in
  appendReturning q literalFormatter "INSERT" = Ok "INSERT RETURNING id, name".
Proof.
  intros q.
  destruct (hasReturning_iff q literalFormatter "INSERT") as [_ H].
  rewrite H; [reflexivity | reflexivity | discriminate].
Defined.

(** ** Custom values *)

(** X21: a value for a column of the model replaces the one given
    before, while values for a column outside the model add up: of two
    [addValue] calls for the same column, a model column keeps the
    second value only and leaves the side list alone, and any other
    column ends up twice in the side list, in call order. *)
Theorem addValue_overwrites_or_appends (q : customValueQuery)
    (fieldMap : string -> option Field) (col v1 v2 : string)
    (a1 a2 : option (list Value)) :
  let q2 := addValue (addValue q fieldMap col v1 a1) fieldMap col v2 a2 in
  (fieldMap col <> None ->
   mapLookup (modelValues q2) col = Some (SafeQuery v2 a2)
   /\ (forall k, k <> col -> mapLookup (modelValues q2) k = mapLookup (modelValues q) k)
   /\ extraValues q2 = extraValues q)
  /\ (fieldMap col = None ->
      modelValues q2 = modelValues q
      /\ extraValues q2
         = (extraValues q ++ [mkColumnValue col (SafeQuery v1 a1);
                              mkColumnValue col (SafeQuery v2 a2)])%list).
Proof.
  intros q2. subst q2. unfold addValue.
  destruct (fieldMap col) as [f|]; split.
  - intros _. cbn [modelValues extraValues mapLookup]. rewrite String.eqb_refl.
    split; [reflexivity|]. split; [|reflexivity].
    intros k Hk. apply String.eqb_neq in Hk. rewrite Hk.
    now destruct (modelValues q).
  - discriminate.
  - intros H. now destruct H.
  - intros _. cbn [modelValues extraValues]. split; [reflexivity|].
    now rewrite <- app_assoc.
Qed.

Lemma addValue_overwrites_or_appends_witness :
  let fieldMap := fun k => find (fun f => Name f =? k) (Fields accountTable) in
  let q := mkCustomValueQuery None [] in
  mapLookup (modelValues (addValue (addValue q fieldMap "name" "lower(?)" None)
                            fieldMap "name" "upper(?)" None)) "name"
  = Some (SafeQuery "upper(?)" None)
  /\ extraValues (addValue (addValue q fieldMap "t.x" "1" None) fieldMap "t.x" "2" None)
     = [mkColumnValue "t.x" (SafeQuery "1" None);
        mkColumnValue "t.x" (SafeQuery "2" None)].
Proof.
  intros fieldMap q. split.
  - apply (addValue_overwrites_or_appends q fieldMap "name" "lower(?)" "upper(?)"
             None None).
    discriminate.
  - apply (addValue_overwrites_or_appends q fieldMap "t.x" "1" "2" None None).
    reflexivity.
Defined.

(** ** What the builder calls of CREATE INDEX can reach *)

Lemma apply_keeps_kind (c : call) (q q' : CreateIndexQuery) :
  apply c q = Ok q' -> fulltext q' = fulltext q /\ spatial q' = spatial q.
Proof.
  destruct c; cbn; intros H; try (injection H as <-; now split).
  destruct (excludeColumn (baseOf q) cols); try discriminate.
  cbn in H. injection H as <-. now split.
Qed.

(** X22: no builder call sets the [fulltext] or the [spatial] option:
    whatever the chain of calls, a statement made from
    [NewCreateIndexQuery] never has them set. *)
Theorem fulltext_spatial_unreachable (cs : list call) (q : CreateIndexQuery) :
  chain cs NewCreateIndexQuery = Ok q -> fulltext q = false /\ spatial q = false.
Proof.
  assert (H : forall cs q0 q1, chain cs q0 = Ok q1 ->
                fulltext q1 = fulltext q0 /\ spatial q1 = spatial q0).
  { clear. induction cs as [|c cs IH]; intros q0 q1 H; cbn in H.
    - injection H as <-. now split.
    - destruct (apply c q0) as [q'| |] eqn:E; try discriminate. cbn in H.
      destruct (apply_keeps_kind _ _ _ E) as [H1 H2].
      destruct (IH _ _ H) as [H3 H4]. split; congruence. }
  intros Hc. apply H in Hc. exact Hc.
Qed.

Lemma fulltext_spatial_unreachable_witness :
  exists q,
    chain [Unique; Concurrently; Index "i" None; Table_ ["t"]] NewCreateIndexQuery
    = Ok q
    /\ fulltext q = false /\ spatial q = false.
Proof.
  eexists. split; [reflexivity|].
  apply (fulltext_spatial_unreachable
           [Unique; Concurrently; Index "i" None; Table_ ["t"]]).
  reflexivity.
Defined.

Lemma Has_wherePK_deleted (f : Flag.t) :
  Flag.Has (Flag.Remove (Flag.Set_ f deletedFlag) allWithDeletedFlag) wherePKFlag
  = Flag.Has f wherePKFlag.
Proof.
  unfold deletedFlag, allWithDeletedFlag, wherePKFlag.
  rewrite (Has_Remove _ 0 2) by lia. rewrite <- (Has_bit _ 0) by lia.
  rewrite (Has_Set _ 0 1) by lia. rewrite (Has_bit f 0) by lia.
  cbn. now rewrite orb_false_r, andb_true_r.
Qed.

Lemma Has_wherePK_allWithDeleted (f : Flag.t) :
  Flag.Has (Flag.Remove (Flag.Set_ f allWithDeletedFlag) deletedFlag) wherePKFlag
  = Flag.Has f wherePKFlag.
Proof.
  unfold deletedFlag, allWithDeletedFlag, wherePKFlag.
  rewrite (Has_Remove _ 0 1) by lia. rewrite <- (Has_bit _ 0) by lia.
  rewrite (Has_Set _ 0 2) by lia. rewrite (Has_bit f 0) by lia.
  cbn. now rewrite orb_false_r, andb_true_r.
Qed.

Lemma setErr_binding (q : baseQuery) (e : error) :
  table (setErr q e) = table q /\ tableModel_ (setErr q e) = tableModel_ q.
Proof. unfold setErr. now destruct (err q). Qed.

Lemma fold_addTable_binding (tbls : list string) (q : baseQuery) :
  let q' := fold_left (fun bq tbl => addTable bq (UnsafeIdent tbl)) tbls q in
  table q' = table q /\ tableModel_ q' = tableModel_ q.
Proof.
  revert q. induction tbls as [|t tbls IH]; intros q; cbn; [now auto|].
  apply (IH (addTable q (UnsafeIdent t))).
Qed.

Lemma fold_addColumn_binding (cols : list string) (q : baseQuery) :
  let q' := fold_left (fun bq c => addColumn bq (UnsafeIdent c)) cols q in
  table q' = table q /\ tableModel_ q' = tableModel_ q.
Proof.
  revert q. induction cols as [|c cols IH]; intros q; cbn; [now auto|].
  apply (IH (addColumn q (UnsafeIdent c))).
Qed.

Lemma apply_builderInvariant (c : call) (q q' : CreateIndexQuery) :
  apply c q = Ok q' -> builderInvariant (baseOf q) -> builderInvariant (baseOf q').
Proof.
  unfold builderInvariant. intros H [Hb Hf].
  assert (Hsame : forall bq : baseQuery,
             table bq = table (baseOf q) -> tableModel_ bq = tableModel_ (baseOf q) ->
             flags bq = flags (baseOf q) ->
             table bq = option_map tableModel_Table (tableModel_ bq)
             /\ Flag.Has (flags bq) wherePKFlag = false).
  { intros bq H1 H2 H3. now rewrite H1, H2, H3. }
  destruct c; cbn in H; try (injection H as <-; apply Hsame; reflexivity).
  - injection H as <-. cbn. destruct r as [e|[tm|k]]; cbn.
    + destruct (setErr_binding (baseOf q) e) as [H1 H2].
      apply Hsame; [exact H1 | exact H2 | apply flags_setErr].
    + now split.
    + now split.
  - injection H as <-. cbn.
    destruct (fold_addTable_binding tbls (baseOf q)) as [H1 H2].
    apply Hsame; [exact H1 | exact H2 | apply fold_addTable_frame].
  - injection H as <-. cbn.
    destruct (fold_addColumn_binding cols (baseOf q)) as [H1 H2].
    apply Hsame; [exact H1 | exact H2 | apply fold_addColumn_frame].
  - destruct (excludeColumn (baseOf q) cols) as [bq| |] eqn:E; try discriminate.
    cbn in H. injection H as <-. cbn.
    destruct (excludeColumn_keeps_model _ _ _ E) as [H1 H2].
    destruct (excludeColumn_frame _ _ _ E) as [_ H3].
    apply Hsame; assumption.
  - injection H as <-. cbn. unfold whereDeleted.
    destruct (checkSoftDelete (baseOf q)).
    + destruct (setErr_binding (baseOf q) e) as [H1 H2].
      apply Hsame; [exact H1 | exact H2 | apply flags_setErr].
    + cbn. split; [exact Hb|]. now rewrite Has_wherePK_deleted.
  - injection H as <-. cbn. unfold whereAllWithDeleted.
    destruct (checkSoftDelete (baseOf q)).
    + destruct (setErr_binding (baseOf q) e) as [H1 H2].
      apply Hsame; [exact H1 | exact H2 | apply flags_setErr].
    + cbn. split; [exact Hb|]. now rewrite Has_wherePK_allWithDeleted.
Qed.

Lemma chain_builderInvariant (cs : list call) :
  forall q q' : CreateIndexQuery,
    chain cs q = Ok q' -> builderInvariant (baseOf q) -> builderInvariant (baseOf q').
Proof.
  induction cs as [|c cs IH]; intros q q' H Hi; cbn in H.
  - now injection H as <-.
  - destruct (apply c q) as [q1| |] eqn:E; try discriminate. cbn in H.
    apply (IH q1 q' H). apply (apply_builderInvariant c q q1 E Hi).
Qed.

Lemma bind_not_Panic {A B : Type} (r : result A) (k : A -> result B) :
  r <> Panic -> (forall a, k a <> Panic) -> bind r k <> Panic.
Proof.
  intros Hr Hk. destruct r; cbn; [apply Hk | discriminate | contradiction].
Qed.

Lemma AppendQuery_not_Panic (f : QueryWithArgs) (fmter : QueryFormatter) (b : string) :
  AppendQuery f fmter b <> Panic.
Proof. unfold AppendQuery. destruct (fmtFragment fmter f); discriminate. Qed.

Lemma _appendWhere_from_not_Panic (fmter : QueryFormatter) (ws : list QueryWithSep) :
  forall (i : nat) (b : string), _appendWhere_from i fmter b ws <> Panic.
Proof.
  induction ws as [|w ws IH]; intros i b; cbn [_appendWhere_from]; [discriminate|].
  destruct ((Query (qwa w) =? "") && isNil (Args (qwa w))); [apply IH|].
  apply bind_not_Panic; [apply AppendQuery_not_Panic | intros a; apply IH].
Qed.

Lemma appendWhere_not_Panic (q : whereBaseQuery) (fmter : QueryFormatter)
    (b : string) :
  builderInvariant (base q) -> appendWhere q fmter b <> Panic.
Proof.
  intros [Hb Hf]. unfold appendWhere. rewrite Hf.
  destruct ((List.length (where_ (wq q)) =? 0)%nat
            && negb (isSoftDelete (base q)) && negb false); [discriminate|].
  apply bind_not_Panic.
  - destruct (0 <? List.length (where_ (wq q)))%nat;
      [apply _appendWhere_from_not_Panic | discriminate].
  - intros b1. apply bind_not_Panic; [|discriminate].
    unfold isSoftDelete, appendWhereSoftDelete. rewrite Hb.
    destruct (tableModel_ (base q)) as [tm|]; cbn [option_map]; [|discriminate].
    destruct (SoftDeleteField (tableModel_Table tm)); [|discriminate].
    destruct (negb (Flag.Has (flags (base q)) allWithDeletedFlag)); [|discriminate].
    destruct (Flag.Has (flags (base q)) deletedFlag); discriminate.
Qed.

(** X23: a statement made from [NewCreateIndexQuery] by builder calls
    has its table bound together with its table model and never has the
    restrict-to-PK flag set; rendering it never panics: it gives the
    statement or an error. *)
Theorem built_statement_never_panics (cs : list call) (q : CreateIndexQuery)
    (fmter : QueryFormatter) (b : string) :
  chain cs NewCreateIndexQuery = Ok q ->
  builderInvariant (baseOf q)
  /\ CreateIndexQuery_AppendQuery q fmter b <> Panic.
Proof.
  intros Hc.
  assert (Hi : builderInvariant (baseOf q)).
  { apply (chain_builderInvariant cs NewCreateIndexQuery q Hc). now split. }
  split; [exact Hi|].
  unfold CreateIndexQuery_AppendQuery.
  destruct (err (baseOf q)); [discriminate|].
  apply bind_not_Panic; [apply AppendQuery_not_Panic | intros b1].
  apply bind_not_Panic.
  { unfold appendFirstTable, _appendFirstTable.
    destruct (negb (IsZero (modelTable (baseOf q)))); [apply AppendQuery_not_Panic|].
    destruct (table (baseOf q)); [discriminate|].
    destruct (tables (baseOf q)); [discriminate | apply AppendQuery_not_Panic]. }
  intros b2. apply bind_not_Panic.
  { destruct (negb (IsZero (using_ q))); [apply AppendQuery_not_Panic | discriminate]. }
  intros b3. apply bind_not_Panic; [apply appendFragments_not_Panic|].
  intros b4. apply bind_not_Panic.
  { destruct (0 <? List.length (include q))%nat; [|discriminate].
    apply bind_not_Panic; [apply appendFragments_not_Panic | discriminate]. }
  intros b5. apply appendWhere_not_Panic. exact Hi.
Qed.

Lemma built_statement_never_panics_witness :
  exists q,
    chain [Model (inr (modelOfTable (structTableModel userTable user)));
           Index "idx" None; ExcludeColumn ["nope"]] NewCreateIndexQuery = Ok q
    /\ builderInvariant (baseOf q)
    /\ CreateIndexQuery_AppendQuery q literalFormatter "" <> Panic.
Proof.
  eexists. split; [reflexivity|].
  apply (built_statement_never_panics
           [Model (inr (modelOfTable (structTableModel userTable user)));
            Index "idx" None; ExcludeColumn ["nope"]]).
  reflexivity.
Defined.

(** X24: a statement without any table does not render: when no error
    is recorded and the index expression renders, [AppendQuery] returns
    the error that the query has no table, whatever else was set. *)
Theorem createIndex_requires_table (q : CreateIndexQuery) (fmter : QueryFormatter)
    (b s : string) :
  err (baseOf q) = None -> fmtFragment fmter (index q) = inl s ->
  hasTables (baseOf q) = false ->
  CreateIndexQuery_AppendQuery q fmter b = Err errNoTable.
Proof.
  intros Herr Hidx Hts. unfold CreateIndexQuery_AppendQuery. rewrite Herr.
  unfold AppendQuery at 1. rewrite Hidx. cbn [bind].
  unfold hasTables, modelHasTableName in Hts.
  apply orb_false_iff in Hts. destruct Hts as [Hm Hl].
  apply orb_false_iff in Hm. destruct Hm as [Hz Ht].
  unfold appendFirstTable, _appendFirstTable. rewrite Hz.
  destruct (table (baseOf q)); [discriminate|].
  destruct (tables (baseOf q)); [reflexivity | discriminate].
Qed.

Lemma createIndex_requires_table_witness :
  exists q,
    chain [Unique; Index "idx" None; Column ["a"]] NewCreateIndexQuery = Ok q
    /\ CreateIndexQuery_AppendQuery q literalFormatter "" = Err errNoTable.
Proof.
  eexists. split; [reflexivity|].
  apply (createIndex_requires_table _ literalFormatter "" "idx"); reflexivity.
Defined.

Lemma appendWhere_soft_delete_only (q : whereBaseQuery) (tm : tableModel)
    (sf : Field) (fmter : QueryFormatter) (b : string) :
  tableModel_ (base q) = Some tm ->
  table (base q) = Some (tableModel_Table tm) ->
  SoftDeleteField (tableModel_Table tm) = Some sf ->
  Flag.Has (flags (base q)) allWithDeletedFlag = false ->
  Flag.Has (flags (base q)) wherePKFlag = false ->
  where_ (wq q) = [] ->
  appendWhere q fmter b
  = Ok (b ++ " WHERE " ++ softDeletePredicate (tableModel_Table tm) sf (flags (base q))).
Proof.
  intros Htm Ht Hsf Hall Hpk Hw.
  unfold appendWhere, isSoftDelete, appendWhereSoftDelete, softDeletePredicate.
  rewrite Ht, Htm, Hsf, Hall, Hpk, Hw.
  cbn [List.length Nat.eqb negb andb bind]. change (0 <? 0)%nat with false.
  cbv iota. cbn [bind]. rewrite Nat.ltb_irrefl.
  destruct (Flag.Has (flags (base q)) deletedFlag); cbn [bind];
    now rewrite !append_assoc.
Qed.

(** X25: CREATE INDEX on a model with a soft-delete column is a partial
    index by default.  With a table model bound whose table has a
    soft-delete field, no where predicate and the include-all flag unset,
    every statement [AppendQuery] returns ends with [ WHERE ] and the
    soft-delete predicate. *)
Theorem createIndex_partial_by_default (q : CreateIndexQuery) (tm : tableModel)
    (sf : Field) (fmter : QueryFormatter) (b out : string) :
  tableModel_ (baseOf q) = Some tm ->
  table (baseOf q) = Some (tableModel_Table tm) ->
  SoftDeleteField (tableModel_Table tm) = Some sf ->
  Flag.Has (flags (baseOf q)) allWithDeletedFlag = false ->
  Flag.Has (flags (baseOf q)) wherePKFlag = false ->
  where_ (wq (wbq q)) = [] ->
  CreateIndexQuery_AppendQuery q fmter b = Ok out ->
  exists pre,
    out = pre ++ " WHERE "
            ++ softDeletePredicate (tableModel_Table tm) sf (flags (baseOf q)).
Proof.
  intros Htm Ht Hsf Hall Hpk Hw H. unfold CreateIndexQuery_AppendQuery in H.
  destruct (err (baseOf q)); [discriminate|].
  repeat match type of H with
         | bind ?r _ = Ok _ =>
             destruct r; cbn [bind] in H; try discriminate
         end.
  rewrite (appendWhere_soft_delete_only (wbq q) tm sf fmter _ Htm Ht Hsf Hall Hpk Hw)
    in H.
  injection H as <-. eexists. reflexivity.
Qed.

Lemma createIndex_partial_by_default_witness :
  exists q,
    chain [Model (inr (modelOfTable (structTableModel userTable user)));
           Index "idx_name" None; Column ["name"]] NewCreateIndexQuery = Ok q
    /\ exists pre,
         "CREATE INDEX idx_name ON users (name) WHERE u.deleted_at IS NULL"
         = pre ++ " WHERE "
             ++ softDeletePredicate userTable deletedAtField (flags (baseOf q)).
Proof.
  eexists. split; [reflexivity|].
  lazymatch goal with
  | |- context [baseOf ?q0] =>
      apply (createIndex_partial_by_default q0 (structTableModel userTable user)
               deletedAtField literalFormatter "");
        reflexivity
  end.
Defined.

(** ** Adding predicates one by one *)

Lemma _appendWhere_snoc (fmter : QueryFormatter) (b : string)
    (ws : list QueryWithSep) (w : QueryWithSep) (t : string) :
  fmtFragment fmter (qwa w) = inl t ->
  IsZero (qwa w) = false ->
  _appendWhere fmter b (ws ++ [w])%list
  = (b1 <- _appendWhere fmter b ws ;;
     Ok (b1 ++ (match ws with [] => "" | _ :: _ => Sep w end) ++ "(" ++ t ++ ")")).
Proof.
  intros Ht Hz. unfold _appendWhere. rewrite _appendWhere_from_app.
  destruct (_appendWhere_from 0 fmter b ws) as [b1| |]; cbn [bind]; try reflexivity.
  cbn [_appendWhere_from Nat.add].
  change ((Query (qwa w) =? "") && isNil (Args (qwa w))) with (IsZero (qwa w)).
  rewrite Hz. unfold AppendQuery. rewrite Ht. cbn [bind].
  destruct ws; cbn [List.length]; [change (0 <? 0)%nat with false
                                   | change (0 <? S _)%nat with true];
    cbv iota; now rewrite !append_assoc.
Qed.

(** X26: rendering follows the builder calls.  [Where] with a predicate
    that renders adds that predicate in parentheses to what the list
    rendered before, behind [ AND ] unless the list was empty; [WhereOr]
    does the same with [ OR ]. *)
Theorem where_adds_predicate (q : WhereQuery) (query : string)
    (args : option (list Value)) (fmter : QueryFormatter) (b t : string) :
  fmtFragment fmter (SafeQuery query args) = inl t ->
  IsZero (SafeQuery query args) = false ->
  _appendWhere fmter b (where_ (Where q query args))
  = (b1 <- _appendWhere fmter b (where_ q) ;;
     Ok (b1 ++ (match where_ q with [] => "" | _ :: _ => " AND " end)
           ++ "(" ++ t ++ ")"))
  /\ _appendWhere fmter b (where_ (WhereOr q query args))
     = (b1 <- _appendWhere fmter b (where_ q) ;;
        Ok (b1 ++ (match where_ q with [] => "" | _ :: _ => " OR " end)
              ++ "(" ++ t ++ ")")).
Proof.
  intros Ht Hz. unfold Where, WhereOr, addWhere. cbn [where_].
  split; apply _appendWhere_snoc; assumption.
Qed.

Lemma where_adds_predicate_witness :
  let q := Where (mkWhereQuery []) "a = 1" None in
  _appendWhere literalFormatter "WHERE " (where_ (WhereOr q "b = 2" None))
  = Ok "WHERE (a = 1) OR (b = 2)".
Proof.
  intros q.
  destruct (where_adds_predicate q "b = 2" None literalFormatter "WHERE " "b = 2"
              eq_refl eq_refl) as [_ H].
  rewrite H. reflexivity.
Defined.

(** ** WITH *)

Lemma appendText_empty (r : string + string) (b : string) :
  appendText r b = (t <- appendText r "" ;; Ok (b ++ t)).
Proof. destruct r; reflexivity. Qed.

Lemma appendWith_from_texts (ident : QueryFormatter -> string -> string)
    (fmter : QueryFormatter) (withs : list withQuery) :
  forall (i : nat) (b : string),
    appendWith_from i ident withs fmter b
    = (ts <- withTexts ident fmter withs ;;
       Ok match withs with
          | [] => b
          | _ :: _ => (if (0 <? i)%nat then b ++ ", " else b) ++ String.concat ", " ts
          end).
Proof.
  induction withs as [|w rest IH]; intros i b; [reflexivity|].
  cbn [appendWith_from withTexts]. unfold withText.
  set (b1 := if (0 <? i)%nat then b ++ ", " else b).
  destruct (qaColumns (withBody w)) as [c|].
  - rewrite (appendText_empty (c fmter)).
    destruct (appendText (c fmter) "") as [tc| |]; cbn [bind]; try reflexivity.
    rewrite (appendText_empty (qaQuery (withBody w) fmter)).
    destruct (appendText (qaQuery (withBody w) fmter) "") as [tb| |]; cbn [bind];
      try reflexivity.
    rewrite IH. clear IH.
    destruct (withTexts ident fmter rest) as [ts| |] eqn:E; cbn [bind];
      try reflexivity.
    destruct rest as [|w' rest].
    + cbn in E. injection E as <-. cbn [String.concat]. now rewrite !append_assoc.
    + change (0 <? S i)%nat with true. cbv iota.
      destruct ts as [|t' ts].
      * cbn in E. destruct (withText ident fmter w'); cbn in E; try discriminate.
        destruct (withTexts ident fmter rest); discriminate.
      * cbn [String.concat]. now rewrite !append_assoc.
  - cbn [bind].
    rewrite (appendText_empty (qaQuery (withBody w) fmter)).
    destruct (appendText (qaQuery (withBody w) fmter) "") as [tb| |]; cbn [bind];
      try reflexivity.
    rewrite IH. clear IH.
    destruct (withTexts ident fmter rest) as [ts| |] eqn:E; cbn [bind];
      try reflexivity.
    destruct rest as [|w' rest].
    + cbn in E. injection E as <-. cbn [String.concat]. now rewrite !append_assoc.
    + change (0 <? S i)%nat with true. cbv iota.
      destruct ts as [|t' ts].
      * cbn in E. destruct (withText ident fmter w'); cbn in E; try discriminate.
        destruct (withTexts ident fmter rest); discriminate.
      * cbn [String.concat]. now rewrite !append_assoc.
Qed.

(** X27: [appendWith] writes nothing when no sub-query is attached;
    otherwise [WITH ], the entries [name [(columns)] AS (body)] with a
    comma and a space in between, and a closing space.  The column list
    is there exactly for the sub-queries that can give one, and the first
    column list or body that does not render gives the error. *)
Theorem appendWith_shape (ident : QueryFormatter -> string -> string)
    (withs : list withQuery) (fmter : QueryFormatter) (b : string) :
  appendWith ident withs fmter b
  = match withs with
    | [] => Ok b
    | _ :: _ =>
        ts <- withTexts ident fmter withs ;;
        Ok (b ++ "WITH " ++ String.concat ", " ts ++ " ")
    end.
Proof.
  unfold appendWith. destruct withs as [|w rest]; [reflexivity|].
  cbn [List.length Nat.eqb]. rewrite appendWith_from_texts.
  destruct (withTexts ident fmter (w :: rest)); cbn [bind]; try reflexivity.
  change (0 <? 0)%nat with false. cbv iota. now rewrite !append_assoc.
Qed.

(** ** Scanning integers *)



Example appendWith_two_entries :
  appendWith (fun _ name => name)
    [mkWithQuery "a" (mkQueryAppender (fun _ => inl "SELECT 1") None);
     mkWithQuery "b" (mkQueryAppender (fun _ => inl "SELECT 2")
                        (Some (fun _ => inl "x, y")))]
    literalFormatter "" = Ok "WITH a AS (SELECT 1), b (x, y) AS (SELECT 2) ".
Proof. reflexivity. Qed.
